(** * PlantLeaves: the dataset adapter of [tensorflow_datasets/image/plant_leaves.py]

    A shallow embedding of the label table, of the filename pattern, of the
    retry loop around [dl_manager.download] and of the example generator,
    followed by the properties of the adapter.

    Conventions of the embedding.
    - A Python [str] is a [string]; one [ascii] stands for one character,
      taken by its code point (0..255).  On that range the class [\d] of
      [re] is exactly ['0'..'9'], and [.] is every character but the line
      feed (code 10).
    - A Python [dict] is an insertion-ordered association list with pairwise
      distinct keys ([PyDict]); [items()] walks it in insertion order.
    - A Python [int] is a [Z].
    - An operation that can raise returns a [result]; the generator returns
      what it yielded together with the exception that ended it, if any.
    - The [while True] loop around the download takes fuel: one unit per
      iteration of the loop body. *)

From Stdlib Require Import List String Ascii Bool Arith ZArith Lia Permutation.
Import ListNotations.

Local Open Scope string_scope.
Local Open Scope list_scope.

(** ** Characters and strings *)

Definition LF : ascii := "010"%char.

Definition is_digit (c : ascii) : bool :=
  let n := nat_of_ascii c in ((48 <=? n) && (n <=? 57))%nat.

Definition is_lower (c : ascii) : bool :=
  let n := nat_of_ascii c in ((97 <=? n) && (n <=? 122))%nat.

(** [str.isspace] on one character (code points below 256). *)
Definition is_space (c : ascii) : bool :=
  let n := nat_of_ascii c in
  (((9 <=? n) && (n <=? 13)) || ((28 <=? n) && (n <=? 32))
   || (n =? 133) || (n =? 160))%nat.

Fixpoint string_forallb (f : ascii -> bool) (s : string) : bool :=
  match s with
  | EmptyString => true
  | String c s' => f c && string_forallb f s'
  end.

Definition no_newline (s : string) : bool :=
  string_forallb (fun c => negb (Ascii.eqb c LF)) s.

Definition no_slash (s : string) : bool :=
  string_forallb (fun c => negb (Ascii.eqb c "/"%char)) s.

(** [s.lstrip()], [s.rstrip()] and [s.strip()]. *)
Fixpoint lstrip (s : string) : string :=
  match s with
  | EmptyString => EmptyString
  | String c s' => if is_space c then lstrip s' else s
  end.

Fixpoint rstrip (s : string) : string :=
  match s with
  | EmptyString => EmptyString
  | String c s' =>
      match rstrip s' with
      | EmptyString => if is_space c then EmptyString else String c EmptyString
      | r => String c r
      end
  end.

Definition strip (s : string) : string := rstrip (lstrip s).

(** [os.path.basename] (posixpath): what follows the last ["/"],
    [p[p.rfind('/') + 1:]]. *)
Fixpoint basename_from (acc s : string) : string :=
  match s with
  | EmptyString => acc
  | String c s' =>
      if Ascii.eqb c "/"%char then basename_from s' s' else basename_from acc s'
  end.

Definition basename (p : string) : string := basename_from p p.

(** ["{}/{}".format(a, b)] *)
Definition format_slash (a b : string) : string := (a ++ "/" ++ b)%string.

(** ** Exceptions *)

Inductive exn : Type :=
| KeyError (key : string)
| IndexError
| DownloadError (code : Z).

Inductive result (A : Type) : Type :=
| Ok (a : A)
| Raise (e : exn).
Arguments Ok {A} a.
Arguments Raise {A} e.

Definition bind {A B : Type} (r : result A) (k : A -> result B) : result B :=
  match r with
  | Ok a => k a
  | Raise e => Raise e
  end.

Notation "x <- r ;; k" := (bind r (fun x => k))
  (at level 61, r at next level, right associativity).

(** ** Python dictionaries *)

Module PyDict.

Definition t (V : Type) : Type := list (string * V).

Definition empty {V : Type} : t V := [].

(** [k in d] and [d.get(k)] *)
Fixpoint get {V : Type} (d : t V) (k : string) : option V :=
  match d with
  | [] => None
  | (k', v) :: d' => if String.eqb k' k then Some v else get d' k
  end.

Definition contains {V : Type} (d : t V) (k : string) : bool :=
  match get d k with Some _ => true | None => false end.

(** [d[k]], which raises [KeyError] on a missing key *)
Definition getitem {V : Type} (d : t V) (k : string) : result V :=
  match get d k with
  | Some v => Ok v
  | None => Raise (KeyError k)
  end.

(** [d[k] = v]: a present key keeps its place and takes the new value, a
    new key goes to the end. *)
Fixpoint setitem {V : Type} (d : t V) (k : string) (v : V) : t V :=
  match d with
  | [] => [(k, v)]
  | (k', v') :: d' =>
      if String.eqb k' k then (k', v) :: d' else (k', v') :: setitem d' k v
  end.

(** [{key(x): val(x) for x in xs}] *)
Definition comprehension {A V : Type} (key : A -> string) (val : A -> V)
    (xs : list A) : t V :=
  fold_left (fun d x => setitem d (key x) (val x)) xs empty.

Definition items {V : Type} (d : t V) : list (string * V) := d.

Definition keys {V : Type} (d : t V) : list string := map fst d.

(** The invariant of a dictionary: no key twice. *)
Definition wf {V : Type} (d : t V) : Prop := NoDup (keys d).

End PyDict.

(** ** Regular expressions: the fragment of [re] the adapter uses *)

Module Re.

(** What one pattern character can stand for. *)
Inductive atom : Type :=
| Digit               (* [\d] *)
| Dot                 (* [.], every character but the line feed *)
| Lit (c : ascii).    (* a character standing for itself, [\.] included *)

Inductive node : Type :=
| Caret               (* [^] *)
| Dollar              (* [$] *)
| Open                (* [(], start of group 1 *)
| Close               (* [)], end of group 1 *)
| One (a : atom)
| Star (a : atom).    (* greedy [a*] *)

Definition pattern : Type := list node.

Definition atom_ok (a : atom) (c : ascii) : bool :=
  match a with
  | Digit => is_digit c
  | Dot => negb (Ascii.eqb c LF)
  | Lit c' => Ascii.eqb c' c
  end.

(** Without [re.MULTILINE], [$] holds at the end of the string and just
    before a line feed that ends the string. *)
Definition at_end (rest : string) : bool :=
  match rest with
  | EmptyString => true
  | String c EmptyString => Ascii.eqb c LF
  | _ => false
  end.

(** Start and end offsets of group 1, once known. *)
Definition span : Type := (option nat * option nat)%type.

(** The backtracking matcher: [run p pos rest g] matches [p] against [rest],
    the input from offset [pos] on; a greedy star first takes one more
    character and falls back to the continuation when that fails. *)
Fixpoint run (p : pattern) (pos : nat) (rest : string) (g : span)
    {struct p} : option span :=
  match p with
  | [] => Some g
  | Caret :: p' => if Nat.eqb pos 0 then run p' pos rest g else None
  | Dollar :: p' => if at_end rest then run p' pos rest g else None
  | Open :: p' => run p' pos rest (Some pos, snd g)
  | Close :: p' => run p' pos rest (fst g, Some pos)
  | One a :: p' =>
      match rest with
      | String c rest' =>
          if atom_ok a c then run p' (S pos) rest' g else None
      | EmptyString => None
      end
  | Star a :: p' =>
      (fix star (pos : nat) (rest : string) {struct rest} : option span :=
         match rest with
         | String c rest' =>
             if atom_ok a c then
               match star (S pos) rest' with
               | Some r => Some r
               | None => run p' pos rest g
               end
             else run p' pos rest g
         | EmptyString => run p' pos rest g
         end) pos rest
  end.

(** A match object: the input and the span of group 1. *)
Record match_obj : Type := MatchObj {
  input : string;
  group1_start : nat;
  group1_end : nat
}.

(** [m.group(1)] *)
Definition group1 (m : match_obj) : string :=
  substring (group1_start m) (group1_end m - group1_start m) (input m).

(** [regexp.match(s)]: a match anchored at offset 0, [None] when there is
    none. *)
Definition match_ (p : pattern) (s : string) : option match_obj :=
  match run p 0 s (None, None) with
  | Some (Some i, Some j) => Some (MatchObj s i j)
  | _ => None
  end.

End Re.

(** ** The module constants *)

(** File name prefix to label mapping. *)
Definition _LABEL_MAPPING : list (string * string) := [
    ("0014", "Alstonia Scholaris (P2) diseased");
    ("0003", "Alstonia Scholaris (P2) healthy");
    ("0013", "Arjun (P1) diseased");
    ("0002", "Arjun (P1) healthy");
    ("0016", "Bael (P4) diseased");
    ("0008", "Basil (P8) healthy");
    ("0022", "Chinar (P11) diseased");
    ("0011", "Chinar (P11) healthy");
    ("0015", "Gauva (P3) diseased");
    ("0004", "Gauva (P3) healthy");
    ("0017", "Jamun (P5) diseased");
    ("0005", "Jamun (P5) healthy");
    ("0018", "Jatropha (P6) diseased");
    ("0006", "Jatropha (P6) healthy");
    ("0021", "Lemon (P10) diseased");
    ("0010", "Lemon (P10) healthy");
    ("0012", "Mango (P0) diseased");
    ("0001", "Mango (P0) healthy");
    ("0020", "Pomegranate (P9) diseased");
    ("0009", "Pomegranate (P9) healthy");
    ("0019", "Pongamia Pinnata (P7) diseased");
    ("0007", "Pongamia Pinnata (P7) healthy")
  ].

Definition _MAX_DOWNLOAD_RETRY : Z := 10.

(** ** [_info]: the declared class labels *)

(** [zip] applied to the unpacked rows of a list of pairs: the tuple of the
    first components, then the tuple of the second components; nothing for
    no row at all. *)
Definition zip_star (rows : list (string * string)) : list (list string) :=
  match rows with
  | [] => []
  | _ => [map fst rows; map snd rows]
  end.

(** [xs[i]] *)
Definition list_getitem {A : Type} (xs : list A) (i : nat) : result A :=
  match nth_error xs i with
  | Some x => Ok x
  | None => Raise IndexError
  end.

Record DatasetInfo : Type := {
  class_label_names : list string;
  supervised_keys : string * string
}.

Definition _info : result DatasetInfo :=
  labels <- list_getitem (zip_star _LABEL_MAPPING) 1 ;;
  Ok {| class_label_names := labels;
        supervised_keys := ("image", "label") |}.

(** ** [_split_generators]: the URL manifest and the retried download *)

(** The dictionary comprehension over [f.readlines()]. *)
Definition name_to_url_map (lines : list string) : PyDict.t string :=
  PyDict.comprehension (fun l => basename (strip l)) (fun l => strip l) lines.

(** [dl_manager.download]: an outside call that returns a dictionary from
    names to local paths or raises.  Its outcome may differ from one call to
    the next, so it is given the number of calls made before this one. *)
Definition downloader : Type := nat -> PyDict.t string -> result (PyDict.t string).

(** Unary plus on an [int]. *)
Definition uplus (n : Z) : Z := n.

(** How the method stands when it is left or when the fuel is spent
    ([Looping]: still in the loop); [calls] counts the calls of
    [dl_manager.download] made so far. *)
Inductive outcome (A : Type) : Type :=
| Returned (a : A) (calls : nat)
| Raised (e : exn) (calls : nat)
| Looping (calls : nat).
Arguments Returned {A} a calls.
Arguments Raised {A} e calls.
Arguments Looping {A} calls.

(** The [while True] loop.  The statement [++retry_count] is an expression
    statement: it evaluates [+(+retry_count)] and drops the value, so
    [retry_count] is not assigned. *)
Fixpoint download_loop (fuel : nat) (dl : downloader) (urls : PyDict.t string)
    (calls : nat) (retry_count : Z) : outcome (PyDict.t string) :=
  match fuel with
  | O => Looping calls
  | S fuel' =>
      match dl calls urls with
      | Ok image_files => Returned image_files (S calls)
      | Raise e =>
          let _ := uplus (uplus retry_count) in
          if Z.eqb retry_count _MAX_DOWNLOAD_RETRY
          then Raised e (S calls)
          else download_loop fuel' dl urls (S calls) retry_count
      end
  end.

Inductive Split : Type := TRAIN | VALIDATION | TEST.

Record SplitGenerator : Type := {
  name : Split;
  num_shards : nat;
  gen_kwargs : PyDict.t (PyDict.t string)
}.

Definition _split_generators (fuel : nat) (lines : list string)
    (dl_manager : downloader) : outcome (list SplitGenerator) :=
  let name_to_url_map := name_to_url_map lines in
  let retry_count := 0%Z in
  match download_loop fuel dl_manager name_to_url_map 0 retry_count with
  | Returned image_files calls =>
      Returned
        [ {| name := TRAIN;
             num_shards := 1;
             gen_kwargs := [("image_files", image_files)] |} ]
        calls
  | Raised e calls => Raised e calls
  | Looping calls => Looping calls
  end.

(** ** [_generate_examples] *)

Record example : Type := {
  image : string;
  image_filename : string;
  label : string
}.

Definition label_map : PyDict.t string :=
  PyDict.comprehension fst snd _LABEL_MAPPING.

(** [re.compile("^(\d\d\d\d)_.*\.JPG$")] *)
Definition regexp : Re.pattern :=
  [ Re.Caret;
    Re.Open; Re.One Re.Digit; Re.One Re.Digit; Re.One Re.Digit;
    Re.One Re.Digit; Re.Close;
    Re.One (Re.Lit "_"); Re.Star Re.Dot;
    Re.One (Re.Lit "."); Re.One (Re.Lit "J"); Re.One (Re.Lit "P");
    Re.One (Re.Lit "G"); Re.Dollar ].

(** The body of the [for] loop on one item: what it yields, if anything. *)
Definition loop_body (original_fname fpath : string)
    : result (option (string * example)) :=
  match Re.match_ regexp original_fname with
  | Some m =>
      if PyDict.contains label_map (Re.group1 m) then
        label <- PyDict.getitem label_map (Re.group1 m) ;;
        let record := {| image := fpath;
                         image_filename := original_fname;
                         label := label |} in
        Ok (Some (format_slash label original_fname, record))
      else Ok None
  | None => Ok None
  end.

(** What a generator did: the pairs it yielded, in order, and the exception
    that ended it, if one did. *)
Definition generated : Type := (list (string * example) * option exn)%type.

Fixpoint for_items (its : list (string * string)) : generated :=
  match its with
  | [] => ([], None)
  | (original_fname, fpath) :: its' =>
      match loop_body original_fname fpath with
      | Raise e => ([], Some e)
      | Ok None => for_items its'
      | Ok (Some y) => let (ys, e) := for_items its' in (y :: ys, e)
      end
  end.

Definition _generate_examples (image_files : PyDict.t string) : generated :=
  for_items (PyDict.items image_files).

(** The pairs yielded, and the exception raised. *)
Definition yielded (image_files : PyDict.t string) : list (string * example) :=
  fst (_generate_examples image_files).

Definition raised (image_files : PyDict.t string) : option exn :=
  snd (_generate_examples image_files).

(** What one item of the dictionary contributes to the output. *)
Definition emitted (it : string * string) : list (string * example) :=
  match loop_body (fst it) (snd it) with
  | Ok (Some y) => [y]
  | _ => []
  end.

(** ** Vocabulary of the properties *)

(** What follows the star in [regexp]. *)
Definition suffix_nodes : Re.pattern :=
  [ Re.One (Re.Lit "."); Re.One (Re.Lit "J"); Re.One (Re.Lit "P");
    Re.One (Re.Lit "G"); Re.Dollar ].

Definition JPG : string := ".JPG".

(** The two ways the input may end for [$] to hold after [".JPG"]. *)
Definition line_end (eol : string) : Prop :=
  eol = EmptyString \/ eol = String LF EmptyString.

(** A four-character numeric code. *)
Definition is_code (code : string) : Prop :=
  String.length code = 4 /\ string_forallb is_digit code = true.

(** The last character of a text, if it has one. *)
Fixpoint last_char (s : string) : option ascii :=
  match s with
  | EmptyString => None
  | String c EmptyString => Some c
  | String _ s' => last_char s'
  end.

(** A check that no text occurs twice in a list. *)
Fixpoint distinctb (l : list string) : bool :=
  match l with
  | [] => true
  | x :: l' => negb (existsb (String.eqb x) l') && distinctb l'
  end.

(** The first character of a text, if it has one. *)
Definition first_char (s : string) : option ascii :=
  match s with
  | EmptyString => None
  | String c _ => Some c
  end.

(** A character that [strip] leaves alone at either end of a text. *)
Definition not_space (c : option ascii) : Prop :=
  forall x, c = Some x -> is_space x = false.

(** A line as [readlines] gives it: no line feed but, possibly, at its
    end. *)
Definition is_line (l : string) : Prop :=
  exists body eol,
    l = (body ++ eol)%string /\ no_newline body = true /\ line_end eol.

(** The key and the value that the manifest comprehension takes from a
    line. *)
Definition line_key (l : string) : string := basename (strip l).
Definition line_url (l : string) : string := strip l.

(** ** Sanity checks of the embedding on concrete inputs *)

Example regexp_plain :
  option_map Re.group1 (Re.match_ regexp "0001_leaf.JPG") = Some "0001".
Proof. reflexivity. Qed.

Example regexp_lowercase : Re.match_ regexp "0001_leaf.jpg" = None.
Proof. reflexivity. Qed.

Example regexp_inner_suffix :
  option_map Re.group1 (Re.match_ regexp "0001_a.JPG.JPG") = Some "0001".
Proof. reflexivity. Qed.

Example regexp_three_digits : Re.match_ regexp "001_leaf.JPG" = None.
Proof. reflexivity. Qed.

Example basename_url :
  basename "https://data.mendeley.com/a/b/0001_0001.JPG" = "0001_0001.JPG".
Proof. reflexivity. Qed.

Example strip_line : strip (String LF "  a b " ++ String LF "") = "a b".
Proof. reflexivity. Qed.

Example label_map_0001 : PyDict.get label_map "0001" = Some "Mango (P0) healthy".
Proof. reflexivity. Qed.

(** * Properties *)

(** ** Strings *)

(** A text of exactly four characters, spelled out. *)
Lemma length4_inv (code : string) :
  String.length code = 4 ->
  exists d1 d2 d3 d4,
    code = String d1 (String d2 (String d3 (String d4 EmptyString))).
Proof.
  destruct code as [|d1 [|d2 [|d3 [|d4 [|d5 rest]]]]]; simpl; try discriminate.
  intros _. now exists d1, d2, d3, d4.
Qed.

(** The first ["/"] of [a ++ "/" ++ b] is the one written, when [a] has
    none: the two sides of the separator can be read back. *)
Lemma format_slash_inj (a1 a2 b1 b2 : string) :
  no_slash a1 = true -> no_slash a2 = true ->
  format_slash a1 b1 = format_slash a2 b2 -> a1 = a2 /\ b1 = b2.
Proof.
  unfold format_slash, no_slash.
  revert a2; induction a1 as [|x a1 IH]; intros [|y a2]; simpl; intros H1 H2 E.
  - inversion E. now split.
  - inversion E; subst. now rewrite Ascii.eqb_refl in H2.
  - inversion E; subst. now rewrite Ascii.eqb_refl in H1.
  - apply andb_prop in H1 as [_ H1]. apply andb_prop in H2 as [_ H2].
    inversion E; subst. destruct (IH a2 H1 H2) as [-> ->]; auto.
Qed.

(** ** The pattern *)

Module ReFacts.
Import Re.

Lemma run_star_unfold (a : atom) (p : pattern) (pos : nat) (c : ascii)
    (rest : string) (g : span) :
  run (Star a :: p) pos (String c rest) g =
  if atom_ok a c then
    match run (Star a :: p) (S pos) rest g with
    | Some r => Some r
    | None => run p pos (String c rest) g
    end
  else run p pos (String c rest) g.
Proof. reflexivity. Qed.

Lemma run_star_nil (a : atom) (p : pattern) (pos : nat) (g : span) :
  run (Star a :: p) pos EmptyString g = run p pos EmptyString g.
Proof. reflexivity. Qed.

Lemma run_suffix_iff (pos : nat) (s : string) (g r : span) :
  run suffix_nodes pos s g = Some r <->
  r = g /\ exists eol, line_end eol /\ s = (JPG ++ eol)%string.
Proof.
  unfold suffix_nodes, JPG, line_end. split.
  - destruct s as [|c1 [|c2 [|c3 [|c4 s]]]];
      cbn [run atom_ok]; try discriminate;
      repeat match goal with
             | |- (if Ascii.eqb ?a ?b then _ else _) = _ -> _ =>
                 destruct (Ascii.eqb_spec a b); [subst | discriminate]
             | |- None = Some _ -> _ => discriminate
             end.
    destruct s as [|c5 [|c6 s]]; cbn [run at_end]; try discriminate.
    + intros [= <-]. split; [reflexivity|]. exists EmptyString. auto.
    + destruct (Ascii.eqb_spec c5 LF); [subst | discriminate].
      intros [= <-]. split; [reflexivity|]. exists (String LF EmptyString). auto.
  - intros [-> [eol [[-> | ->] ->]]]; reflexivity.
Qed.

(** The greedy star followed by the suffix: some split of the input into a
    line-feed-free middle, [".JPG"] and a line end. *)
Lemma run_star_suffix_iff (s : string) (pos : nat) (g r : span) :
  run (Star Dot :: suffix_nodes) pos s g = Some r <->
  r = g /\ exists mid eol,
    no_newline mid = true /\ line_end eol /\ s = (mid ++ JPG ++ eol)%string.
Proof.
  revert pos r; induction s as [|c s IH]; intros pos r.
  - rewrite run_star_nil, run_suffix_iff. split.
    + intros [_ [eol [_ E]]]. discriminate E.
    + intros [_ [[|x mid] [eol [_ [_ E]]]]]; discriminate E.
  - rewrite run_star_unfold. cbn [atom_ok].
    destruct (Ascii.eqb_spec c LF) as [-> | Hc]; cbn [negb].
    + rewrite run_suffix_iff. split.
      * intros [_ [eol [_ E]]]. discriminate E.
      * intros [_ [[|x mid] [eol [Hm [_ E]]]]].
        -- discriminate E.
        -- simpl in E. assert (x = LF) as Ex by congruence.
           rewrite Ex in Hm. now vm_compute in Hm.
    + destruct (run (Star Dot :: suffix_nodes) (S pos) s g) as [r0|] eqn:E0.
      * apply IH in E0 as [-> [mid [eol [Hm [He ->]]]]]. split.
        -- intros [= <-]. split; [reflexivity|].
           exists (String c mid), eol. repeat split; auto.
           unfold no_newline in *. simpl. rewrite Hm.
           destruct (Ascii.eqb_spec c LF); [contradiction | reflexivity].
        -- now intros [-> _].
      * rewrite run_suffix_iff. split.
        -- intros [-> [eol [He E]]]. split; [reflexivity|].
           exists EmptyString, eol. repeat split; auto.
        -- intros [-> [[|x mid] [eol [Hm [He E]]]]].
           ++ split; [reflexivity|]. exists eol. auto.
           ++ exfalso. simpl in E. injection E as Ex Es. subst x.
              assert (run (Star Dot :: suffix_nodes) (S pos) s g = Some g)
                as E1.
              { apply IH. split; [reflexivity|]. exists mid, eol.
                repeat split; auto. unfold no_newline in *. simpl in Hm.
                now apply andb_prop in Hm. }
              congruence.
Qed.

(** The input read by [regexp] up to the star, character by character. *)
Lemma run_regexp_head (s : string) :
  run regexp 0 s (None, None) =
  match s with
  | String d1 (String d2 (String d3 (String d4 (String u rest)))) =>
      if is_digit d1 && is_digit d2 && is_digit d3 && is_digit d4
         && Ascii.eqb "_" u
      then run (Star Dot :: suffix_nodes) 5 rest (Some 0, Some 4)
      else None
  | _ => None
  end.
Proof.
  unfold regexp.
  destruct s as [|d1 [|d2 [|d3 [|d4 [|u rest]]]]];
    cbn [run atom_ok Nat.eqb fst snd];
    repeat match goal with
           | |- context [is_digit ?d] => destruct (is_digit d); cbn [andb]
           end; reflexivity.
Qed.

(** The language of [regexp], and the group it captures: four digits, an
    underscore, a middle free of line feeds, [".JPG"], and at most one
    final line feed. *)
Theorem match_regexp_iff (s : string) (m : match_obj) :
  match_ regexp s = Some m <->
  exists code mid eol,
    String.length code = 4 /\ string_forallb is_digit code = true /\
    no_newline mid = true /\ line_end eol /\
    s = (code ++ "_" ++ mid ++ JPG ++ eol)%string /\
    m = MatchObj s 0 4 /\ group1 m = code.
Proof.
  unfold match_. rewrite run_regexp_head. split.
  - destruct s as [|d1 [|d2 [|d3 [|d4 [|u rest]]]]]; try discriminate.
    destruct (is_digit d1) eqn:E1; [|discriminate].
    destruct (is_digit d2) eqn:E2; [|discriminate].
    destruct (is_digit d3) eqn:E3; [|discriminate].
    destruct (is_digit d4) eqn:E4; [|discriminate].
    cbn [andb]. destruct (Ascii.eqb_spec "_" u) as [<- | _]; [|discriminate].
    destruct (run (Star Dot :: suffix_nodes) 5 rest (Some 0, Some 4))
      as [r|] eqn:E; [|discriminate].
    apply run_star_suffix_iff in E as [-> [mid [eol [Hm [He ->]]]]].
    intros [= <-].
    exists (String d1 (String d2 (String d3 (String d4 EmptyString)))), mid, eol.
    repeat split; auto. simpl. now rewrite E1, E2, E3, E4.
  - intros [code [mid [eol [Hl [Hd [Hm [He [-> [-> _]]]]]]]]].
    destruct (length4_inv code Hl) as [d1 [d2 [d3 [d4 ->]]]].
    simpl in Hd. repeat (apply andb_prop in Hd as [? Hd]).
    cbn [append].
    repeat match goal with
           | H : is_digit ?d = true |- _ => rewrite H; clear H
           end.
    cbn [andb]. rewrite Ascii.eqb_refl.
    assert (run (Star Dot :: suffix_nodes) 5 (mid ++ JPG ++ eol)%string
              (Some 0, Some 4) = Some (Some 0, Some 4)) as ->.
    { apply run_star_suffix_iff. split; [reflexivity|]. now exists mid, eol. }
    reflexivity.
Qed.

End ReFacts.

(** ** Dictionaries *)

Module PyDictFacts.
Import PyDict.

Section Setitem.
Context {V : Type}.
Implicit Types (d : t V) (k : string) (v : V).

Lemma get_setitem_same d k v : get (setitem d k v) k = Some v.
Proof.
  induction d as [|[k' v'] d IH]; simpl.
  - now rewrite String.eqb_refl.
  - destruct (String.eqb_spec k' k) as [-> | Hk]; simpl.
    + now rewrite String.eqb_refl.
    + destruct (String.eqb_spec k' k); [contradiction | exact IH].
Qed.

Lemma get_setitem_other d k v k0 :
  k <> k0 -> get (setitem d k v) k0 = get d k0.
Proof.
  intros Hk. induction d as [|[k' v'] d IH]; simpl.
  - destruct (String.eqb_spec k k0); [contradiction | reflexivity].
  - destruct (String.eqb_spec k' k) as [-> | Hk']; simpl.
    + destruct (String.eqb_spec k k0); [contradiction | reflexivity].
    + now rewrite IH.
Qed.

Lemma in_keys_setitem d k v k0 :
  In k0 (keys (setitem d k v)) <-> k0 = k \/ In k0 (keys d).
Proof.
  unfold keys. induction d as [|[k' v'] d IH]; simpl.
  - intuition.
  - destruct (String.eqb_spec k' k) as [-> | Hk']; simpl.
    + intuition.
    + rewrite IH. intuition.
Qed.

Lemma wf_setitem d k v : wf d -> wf (setitem d k v).
Proof.
  unfold wf. induction d as [|[k' v'] d IH]; simpl; intros Hd.
  - repeat constructor. intros [].
  - inversion Hd as [|? ? Hnin Hd']; subst.
    destruct (String.eqb_spec k' k) as [-> | Hk']; simpl.
    + now constructor.
    + constructor; [|now apply IH].
      change (~ In k' (keys (setitem d k v))).
      rewrite in_keys_setitem. intros [-> | Hin]; contradiction.
Qed.

End Setitem.

Section Comprehension.
Context {A V : Type} (key : A -> string) (val : A -> V).

Let step (d : t V) (x : A) : t V := setitem d (key x) (val x).

Lemma wf_fold (xs : list A) (d : t V) : wf d -> wf (fold_left step xs d).
Proof.
  revert d; induction xs as [|x xs IH]; intros d Hd; simpl; [exact Hd|].
  apply IH. now apply wf_setitem.
Qed.

Lemma get_fold_keep (xs : list A) (d : t V) (k : string) :
  (forall x, In x xs -> key x <> k) ->
  get (fold_left step xs d) k = get d k.
Proof.
  revert d; induction xs as [|x xs IH]; intros d Hxs; simpl; [reflexivity|].
  rewrite IH by (intros y Hy; apply Hxs; now right).
  apply get_setitem_other. apply Hxs. now left.
Qed.

Lemma get_fold_Some (xs : list A) (d : t V) (k : string) (v : V) :
  get (fold_left step xs d) k = Some v ->
  get d k = Some v \/ exists x, In x xs /\ key x = k /\ val x = v.
Proof.
  revert d; induction xs as [|x xs IH]; intros d; simpl; [now left|].
  intros H. apply IH in H as [H | [y [Hy [Hk Hv]]]].
  - destruct (String.eqb_spec (key x) k) as [Hk | Hk].
    + subst k. unfold step in H. rewrite get_setitem_same in H.
      injection H as <-. right. exists x. auto.
    + unfold step in H. rewrite get_setitem_other in H by exact Hk.
      now left.
  - right. exists y. auto.
Qed.

(** A comprehension is a dictionary. *)
Lemma wf_comprehension (xs : list A) : wf (comprehension key val xs).
Proof. apply wf_fold. constructor. Qed.

(** The last element with a given key decides the value under it. *)
Lemma get_comprehension_last (pre post : list A) (x : A) :
  (forall y, In y post -> key y <> key x) ->
  get (comprehension key val (pre ++ x :: post)) (key x) = Some (val x).
Proof.
  intros Hpost. unfold comprehension.
  rewrite fold_left_app. simpl.
  fold step. rewrite get_fold_keep by exact Hpost.
  apply get_setitem_same.
Qed.

(** Every binding of a comprehension comes from an element. *)
Lemma get_comprehension_Some (xs : list A) (k : string) (v : V) :
  get (comprehension key val xs) k = Some v ->
  exists x, In x xs /\ key x = k /\ val x = v.
Proof.
  intros H. apply get_fold_Some in H as [H | H]; [discriminate H | exact H].
Qed.

End Comprehension.

End PyDictFacts.

(** ** The label table *)

Lemma label_map_Some_in (code lab : string) :
  PyDict.get label_map code = Some lab -> In (code, lab) _LABEL_MAPPING.
Proof.
  intros H. apply PyDictFacts.get_comprehension_Some in H
    as [[c l] [Hin [Hc Hl]]].
  simpl in Hc, Hl. now subst.
Qed.

Lemma in_label_map (code lab : string) :
  In (code, lab) _LABEL_MAPPING -> PyDict.get label_map code = Some lab.
Proof.
  unfold _LABEL_MAPPING. simpl.
  intros H.
  repeat (destruct H as [H | H]; [injection H as <- <-; reflexivity|]).
  destruct H.
Qed.

Lemma label_map_None_iff (code : string) :
  PyDict.get label_map code = None <-> ~ In code (map fst _LABEL_MAPPING).
Proof.
  split.
  - intros H Hin. apply in_map_iff in Hin as [[c l] [Hc Hin]].
    simpl in Hc; subst c. apply in_label_map in Hin. congruence.
  - intros H. destruct (PyDict.get label_map code) as [lab|] eqn:E;
      [|reflexivity].
    exfalso. apply H. apply label_map_Some_in in E.
    apply in_map_iff. now exists (code, lab).
Qed.

Lemma labels_have_no_slash (code lab : string) :
  In (code, lab) _LABEL_MAPPING -> no_slash lab = true.
Proof.
  unfold _LABEL_MAPPING. simpl. intros H.
  repeat (destruct H as [H | H]; [injection H as <- <-; reflexivity|]).
  destruct H.
Qed.

(** ** The generator, one item at a time *)

Lemma substring_code (code rest : string) :
  String.length code = 4 -> substring 0 4 (code ++ rest) = code.
Proof.
  intros Hl. destruct (length4_inv code Hl) as [d1 [d2 [d3 [d4 ->]]]].
  simpl. now destruct rest.
Qed.

Lemma loop_body_accept (fname fpath : string) (m : Re.match_obj) (lab : string) :
  Re.match_ regexp fname = Some m ->
  PyDict.get label_map (Re.group1 m) = Some lab ->
  loop_body fname fpath =
  Ok (Some (format_slash lab fname,
            {| image := fpath; image_filename := fname; label := lab |})).
Proof.
  intros Hm Hg. unfold loop_body, PyDict.contains, PyDict.getitem.
  now rewrite Hm, Hg.
Qed.

Lemma loop_body_no_match (fname fpath : string) :
  Re.match_ regexp fname = None -> loop_body fname fpath = Ok None.
Proof. intros Hm. unfold loop_body. now rewrite Hm. Qed.

Lemma loop_body_absent (fname fpath : string) (m : Re.match_obj) :
  Re.match_ regexp fname = Some m ->
  PyDict.get label_map (Re.group1 m) = None ->
  loop_body fname fpath = Ok None.
Proof.
  intros Hm Hg. unfold loop_body, PyDict.contains. now rewrite Hm, Hg.
Qed.

(** The guard [in label_map] makes the subscript safe: the body of the loop
    never raises. *)
Lemma loop_body_never_raises (fname fpath : string) (e : exn) :
  loop_body fname fpath <> Raise e.
Proof.
  destruct (Re.match_ regexp fname) as [m|] eqn:Hm.
  - destruct (PyDict.get label_map (Re.group1 m)) as [lab|] eqn:Hg.
    + now rewrite (loop_body_accept _ _ _ _ Hm Hg).
    + now rewrite (loop_body_absent _ _ _ Hm Hg).
  - now rewrite (loop_body_no_match _ _ Hm).
Qed.

Lemma loop_body_Some_inv (fname fpath key : string) (record : example) :
  loop_body fname fpath = Ok (Some (key, record)) ->
  exists m lab,
    Re.match_ regexp fname = Some m /\
    PyDict.get label_map (Re.group1 m) = Some lab /\
    key = format_slash lab fname /\
    record = {| image := fpath; image_filename := fname; label := lab |}.
Proof.
  destruct (Re.match_ regexp fname) as [m|] eqn:Hm.
  - destruct (PyDict.get label_map (Re.group1 m)) as [lab|] eqn:Hg.
    + rewrite (loop_body_accept _ _ _ _ Hm Hg). intros [= <- <-].
      now exists m, lab.
    + now rewrite (loop_body_absent _ _ _ Hm Hg).
  - now rewrite (loop_body_no_match _ _ Hm).
Qed.

(** ** The generator, over all items *)

Lemma for_items_spec (its : list (string * string)) :
  for_items its = (flat_map emitted its, None).
Proof.
  induction its as [|[fname fpath] its IH]; simpl; [reflexivity|].
  unfold emitted at 1. simpl.
  destruct (loop_body fname fpath) as [[y|]|e] eqn:E.
  - now rewrite IH.
  - exact IH.
  - now apply loop_body_never_raises in E.
Qed.

Lemma yielded_spec (image_files : PyDict.t string) :
  yielded image_files = flat_map emitted (PyDict.items image_files).
Proof. unfold yielded, _generate_examples. now rewrite for_items_spec. Qed.

Lemma raised_never (image_files : PyDict.t string) : raised image_files = None.
Proof. unfold raised, _generate_examples. now rewrite for_items_spec. Qed.

Lemma in_yielded_iff (image_files : PyDict.t string) (y : string * example) :
  In y (yielded image_files) <->
  exists fname fpath,
    In (fname, fpath) (PyDict.items image_files) /\
    loop_body fname fpath = Ok (Some y).
Proof.
  rewrite yielded_spec, in_flat_map. split.
  - intros [[fname fpath] [Hin Hy]]. exists fname, fpath. split; [exact Hin|].
    unfold emitted in Hy. simpl in Hy.
    destruct (loop_body fname fpath) as [[y'|]|e]; simpl in Hy;
      try contradiction.
    destruct Hy as [-> | []]. reflexivity.
  - intros [fname [fpath [Hin Hy]]]. exists (fname, fpath). split; [exact Hin|].
    unfold emitted. simpl. rewrite Hy. now left.
Qed.

(** Every record carries the name of the item it was made from, and is
    filed under its label and that name. *)
Lemma yielded_inv (image_files : PyDict.t string) (key : string)
    (record : example) :
  In (key, record) (yielded image_files) ->
  exists m,
    In (image_filename record, image record) (PyDict.items image_files) /\
    Re.match_ regexp (image_filename record) = Some m /\
    PyDict.get label_map (Re.group1 m) = Some (label record) /\
    key = format_slash (label record) (image_filename record).
Proof.
  intros H. apply in_yielded_iff in H as [fname [fpath [Hin Hb]]].
  apply loop_body_Some_inv in Hb as [m [lab [Hm [Hg [-> ->]]]]].
  exists m. simpl. auto.
Qed.

(** ** The retried download *)

(** With [retry_count] at zero the comparison with [_MAX_DOWNLOAD_RETRY]
    fails, and nothing in the loop moves [retry_count]. *)
Lemma download_loop_never_raises (fuel : nat) (dl : downloader)
    (urls : PyDict.t string) (calls : nat) (e : exn) (n : nat) :
  download_loop fuel dl urls calls 0 <> Raised e n.
Proof.
  revert calls; induction fuel as [|fuel IH]; intros calls; simpl.
  - discriminate.
  - destruct (dl calls urls); [discriminate | apply IH].
Qed.

Lemma download_loop_all_fail (fuel : nat) (dl : downloader)
    (urls : PyDict.t string) (calls : nat) :
  (forall i, exists e, dl i urls = Raise e) ->
  download_loop fuel dl urls calls 0 = Looping (calls + fuel).
Proof.
  intros Hdl. revert calls; induction fuel as [|fuel IH]; intros calls; simpl.
  - now rewrite Nat.add_0_r.
  - destruct (Hdl calls) as [e ->]. rewrite IH. f_equal. lia.
Qed.

(** [n] failures and then a success: the loop returns at call [n + 1],
    whatever [n] is, as soon as the fuel covers [n + 1] iterations. *)
Lemma download_loop_success_after (n fuel : nat) (dl : downloader)
    (urls : PyDict.t string) (calls : nat) (r : PyDict.t string) :
  (forall i, i < n -> exists e, dl (calls + i) urls = Raise e) ->
  dl (calls + n) urls = Ok r ->
  n < fuel ->
  download_loop fuel dl urls calls 0 = Returned r (S (calls + n)).
Proof.
  revert fuel calls; induction n as [|n IH]; intros fuel calls Hfail Hok Hfuel.
  - destruct fuel as [|fuel]; [lia|]. simpl.
    rewrite Nat.add_0_r in Hok. rewrite Hok. now rewrite Nat.add_0_r.
  - destruct fuel as [|fuel]; [lia|]. simpl.
    destruct (Hfail 0) as [e He]; [lia|]. rewrite Nat.add_0_r in He.
    rewrite He. simpl.
    rewrite (IH fuel (S calls)).
    + f_equal. lia.
    + intros i Hi. destruct (Hfail (S i)) as [e' He']; [lia|].
      exists e'. now replace (S calls + i) with (calls + S i) by lia.
    + now replace (S calls + n) with (calls + S n) by lia.
    + lia.
Qed.

(** C1 (what the code does instead): the retry counter is never assigned, so
    a download that raises on every call is called again without end and the
    failure is never re-raised: after any number [fuel] of iterations the
    method is still in its loop, having made [fuel] calls.  A download that
    raises on its first ten calls is called an eleventh time, and when that
    call succeeds the method returns its result.  Whatever the download
    does, the method never ends by raising. *)
Theorem retry_count_is_never_advanced (lines : list string) (e : exn) :
  (forall fuel,
     _split_generators fuel lines (fun _ _ => Raise e) = Looping fuel) /\
  (forall fuel dl e' calls,
     _split_generators fuel lines dl <> Raised e' calls) /\
  (forall image_files,
     _split_generators 11 lines
       (fun n _ => if Nat.ltb n 10 then Raise e else Ok image_files) =
     Returned [ {| name := TRAIN; num_shards := 1;
                   gen_kwargs := [("image_files", image_files)] |} ] 11).
Proof.
  split; [|split].
  - intros fuel. unfold _split_generators.
    rewrite download_loop_all_fail; [reflexivity|].
    intros i. now exists e.
  - intros fuel dl e' calls. unfold _split_generators.
    destruct (download_loop fuel dl (name_to_url_map lines) 0 0)
      as [r n | e0 n | n] eqn:E; try discriminate.
    now apply download_loop_never_raises in E.
  - intros image_files. reflexivity.
Qed.

(** C2: when [dl_manager.download] raises on its first nine calls and
    returns on the tenth, [_split_generators] leaves the loop at the tenth
    call and returns the single TRAIN split generator built on the returned
    dictionary; no exception reaches the caller. *)
Theorem nine_failures_then_success (lines : list string) (dl : downloader)
    (image_files : PyDict.t string) (fuel : nat) :
  (forall i, i < 9 -> exists e, dl i (name_to_url_map lines) = Raise e) ->
  dl 9 (name_to_url_map lines) = Ok image_files ->
  10 <= fuel ->
  _split_generators fuel lines dl =
  Returned [ {| name := TRAIN; num_shards := 1;
                gen_kwargs := [("image_files", image_files)] |} ] 10.
Proof.
  intros Hfail Hok Hfuel. unfold _split_generators.
  rewrite (download_loop_success_after 9 fuel dl _ 0 image_files);
    [reflexivity | exact Hfail | exact Hok | lia].
Qed.

Lemma nine_failures_then_success_witness :
  _split_generators 10 [ "http://host/dir/0001_0001.JPG" ]
    (fun n _ => if Nat.ltb n 9 then Raise (DownloadError 504)
                else Ok [("0001_0001.JPG", "/cache/0001_0001.JPG")]) =
  Returned [ {| name := TRAIN; num_shards := 1;
                gen_kwargs :=
                  [("image_files",
                    [("0001_0001.JPG", "/cache/0001_0001.JPG")])] |} ] 10.
Proof.
  apply nine_failures_then_success.
  - intros i Hi. exists (DownloadError 504).
    destruct (Nat.ltb_spec i 9); [reflexivity | lia].
  - reflexivity.
  - lia.
Defined.

(** ** The URL manifest *)

(** C9: the manifest is built for every list of lines, it has no basename
    twice, and under the basename of a line it holds the stripped text of
    that line whenever no later line has the same basename: of several lines
    with one basename the last one is kept. *)
Theorem manifest_keeps_last_line (lines : list string) :
  PyDict.wf (name_to_url_map lines) /\
  forall pre l post,
    lines = pre ++ l :: post ->
    (forall l', In l' post -> basename (strip l') <> basename (strip l)) ->
    PyDict.getitem (name_to_url_map lines) (basename (strip l)) =
    Ok (strip l).
Proof.
  split.
  - apply PyDictFacts.wf_comprehension.
  - intros pre l post -> Hpost. unfold PyDict.getitem, name_to_url_map.
    now rewrite (PyDictFacts.get_comprehension_last
                   (fun l => basename (strip l)) (fun l => strip l)
                   pre post l Hpost).
Qed.

Lemma manifest_keeps_last_line_witness :
  PyDict.getitem
    (name_to_url_map
       [ "http://a/0001_x.JPG" ++ String LF "";
         "http://b/0002_y.JPG" ++ String LF "";
         "http://c/0001_x.JPG" ++ String LF "" ]%string)
    "0001_x.JPG" = Ok "http://c/0001_x.JPG".
Proof.
  apply (proj2 (manifest_keeps_last_line _)
           [ "http://a/0001_x.JPG" ++ String LF "";
             "http://b/0002_y.JPG" ++ String LF "" ]%string
           ("http://c/0001_x.JPG" ++ String LF "")%string []).
  - reflexivity.
  - intros l' [].
Defined.

(** ** Names the pattern accepts *)

Lemma last_char_app (a b : string) :
  b <> EmptyString -> last_char (a ++ b) = last_char b.
Proof.
  intros Hb. induction a as [|x a IH]; simpl; [reflexivity|].
  rewrite IH. destruct (a ++ b)%string eqn:E; [|reflexivity].
  destruct a; simpl in E; [contradiction | discriminate].
Qed.

Lemma last_char_forallb (f : ascii -> bool) (s : string) (c : ascii) :
  string_forallb f s = true -> last_char s = Some c -> f c = true.
Proof.
  induction s as [|x s IH]; simpl; [discriminate|].
  intros H. apply andb_prop in H as [Hx Hs].
  destruct s; [intros [= <-]; exact Hx | now apply IH].
Qed.

(** A name of the shape the pattern describes is matched, and group 1 is its
    code. *)
Lemma match_shaped (code mid eol : string) :
  is_code code -> no_newline mid = true -> line_end eol ->
  exists m,
    Re.match_ regexp (code ++ "_" ++ mid ++ JPG ++ eol) = Some m /\
    Re.group1 m = code.
Proof.
  intros [Hl Hd] Hm He.
  exists (Re.MatchObj (code ++ "_" ++ mid ++ JPG ++ eol) 0 4).
  assert (Re.group1 (Re.MatchObj (code ++ "_" ++ mid ++ JPG ++ eol) 0 4) = code)
    as Hg by (unfold Re.group1; simpl; now apply substring_code).
  split; [|exact Hg].
  apply ReFacts.match_regexp_iff. exists code, mid, eol. repeat split; auto.
Qed.

(** A matched name ends in ["G"] or in a line feed. *)
Lemma match_last_char (fname : string) (m : Re.match_obj) :
  Re.match_ regexp fname = Some m ->
  last_char fname = Some "G"%char \/ last_char fname = Some LF.
Proof.
  intros H. apply ReFacts.match_regexp_iff in H
    as [code [mid [eol [_ [_ [_ [He [-> _]]]]]]]].
  assert ((JPG ++ eol)%string <> EmptyString) as Hne by discriminate.
  rewrite (last_char_app code) by discriminate.
  rewrite (last_char_app "_") by (destruct mid; discriminate).
  rewrite (last_char_app mid) by exact Hne.
  destruct He as [-> | ->]; [now left | now right].
Qed.

(** What is yielded for an accepted item, and only that. *)
Lemma accepted_item_is_yielded (code lab fname fpath : string)
    (m : Re.match_obj) (image_files : PyDict.t string) :
  Re.match_ regexp fname = Some m -> Re.group1 m = code ->
  In (code, lab) _LABEL_MAPPING ->
  In (fname, fpath) (PyDict.items image_files) ->
  In (format_slash lab fname,
      {| image := fpath; image_filename := fname; label := lab |})
     (yielded image_files) /\
  forall key record,
    In (key, record) (yielded image_files) ->
    image_filename record = fname -> label record = lab.
Proof.
  intros Hm Hg Hlab Hin. apply in_label_map in Hlab. split.
  - apply in_yielded_iff. exists fname, fpath. split; [exact Hin|].
    apply (loop_body_accept _ _ m); [exact Hm | now rewrite Hg].
  - intros key record Hy Hf. apply yielded_inv in Hy as [m' [_ [Hm' [Hg' _]]]].
    rewrite Hf in Hm'. congruence.
Qed.

(** No record bears a name that the loop body turns down. *)
Lemma skipped_name_not_yielded (fname : string) :
  (forall fpath, loop_body fname fpath = Ok None) ->
  forall image_files key record,
    In (key, record) (yielded image_files) -> image_filename record <> fname.
Proof.
  intros Hskip image_files key record Hy Hf.
  apply in_yielded_iff in Hy as [f [p [_ Hb]]].
  pose proof Hb as Hb'.
  apply loop_body_Some_inv in Hb' as [m [lab [_ [_ [_ Hr]]]]].
  subst record. simpl in Hf. subst f. rewrite Hskip in Hb. discriminate.
Qed.

Lemma skipped_item_drops_out (fname fpath : string)
    (pre post : list (string * string)) :
  loop_body fname fpath = Ok None ->
  _generate_examples (pre ++ (fname, fpath) :: post) =
  _generate_examples (pre ++ post).
Proof.
  intros Hskip. unfold _generate_examples, PyDict.items.
  rewrite !for_items_spec, !flat_map_app. simpl.
  unfold emitted at 2. simpl. now rewrite Hskip.
Qed.

Ltac in_table := unfold _LABEL_MAPPING; repeat (try (left; reflexivity); right).

(** C3, as first stated, fails: with any characters allowed between the
    underscore and [".JPG"], the name ["0001_a<LF>b.JPG"] has the stated
    shape and a code of the table, and no record is made for it, since [.]
    does not match a line feed. *)
Lemma line_feed_inside_name_is_not_labelled :
  ~ (forall (code mid lab fname fpath : string) (image_files : PyDict.t string),
       is_code code ->
       fname = (code ++ "_" ++ mid ++ ".JPG")%string ->
       In (code, lab) _LABEL_MAPPING ->
       In (fname, fpath) (PyDict.items image_files) ->
       exists key record,
         In (key, record) (yielded image_files) /\
         image_filename record = fname /\ label record = lab).
Proof.
  intros H.
  destruct (H "0001" ("a" ++ String LF "b")%string "Mango (P0) healthy"
              ("0001_a" ++ String LF "b.JPG")%string "/cache/f"
              [(("0001_a" ++ String LF "b.JPG")%string, "/cache/f")])
    as [key [record [Hin _]]].
  - split; reflexivity.
  - reflexivity.
  - in_table.
  - left; reflexivity.
  - vm_compute in Hin. exact Hin.
Qed.

(** C3 (amended): for every name made of a four-digit code, an underscore,
    any characters other than line feeds and the suffix [".JPG"], with the
    code a key of the label table, [_generate_examples] yields for an item
    of that name the record with the item's path, the name and the label of
    the code, filed under ["{label}/{name}"]; and every record it yields
    under that name has exactly that label. *)
Theorem shaped_name_is_labelled (code mid lab fname fpath : string)
    (image_files : PyDict.t string) :
  is_code code ->
  no_newline mid = true ->
  fname = (code ++ "_" ++ mid ++ ".JPG")%string ->
  In (code, lab) _LABEL_MAPPING ->
  In (fname, fpath) (PyDict.items image_files) ->
  In (format_slash lab fname,
      {| image := fpath; image_filename := fname; label := lab |})
     (yielded image_files) /\
  forall key record,
    In (key, record) (yielded image_files) ->
    image_filename record = fname -> label record = lab.
Proof.
  intros Hc Hmid -> Hlab Hin.
  destruct (match_shaped code mid EmptyString Hc Hmid) as [m [Hm Hg]];
    [now left|].
  now apply (accepted_item_is_yielded code lab _ fpath m).
Qed.

Lemma shaped_name_is_labelled_witness :
  In ("Mango (P0) healthy/0001_leaf.JPG",
      {| image := "/cache/a"; image_filename := "0001_leaf.JPG";
         label := "Mango (P0) healthy" |})
     (yielded [("0001_leaf.JPG", "/cache/a")]).
Proof.
  apply (shaped_name_is_labelled "0001" "leaf" "Mango (P0) healthy"
           "0001_leaf.JPG" "/cache/a" [("0001_leaf.JPG", "/cache/a")]).
  - split; reflexivity.
  - reflexivity.
  - reflexivity.
  - in_table.
  - left; reflexivity.
Defined.

(** C8, as first stated, fails for the same reason as C3: the name
    ["0001_a<LF>b.JPG<LF>"] is four digits, an underscore, some characters,
    [".JPG"] and one line feed, and it is not matched. *)
Lemma line_feed_inside_and_after_is_not_labelled :
  ~ (forall (code mid lab fname fpath : string) (image_files : PyDict.t string),
       is_code code ->
       fname = (code ++ "_" ++ mid ++ ".JPG" ++ String LF "")%string ->
       In (code, lab) _LABEL_MAPPING ->
       In (fname, fpath) (PyDict.items image_files) ->
       exists key record,
         In (key, record) (yielded image_files) /\
         image_filename record = fname).
Proof.
  intros H.
  destruct (H "0001" ("a" ++ String LF "b")%string "Mango (P0) healthy"
              ("0001_a" ++ String LF "b.JPG" ++ String LF "")%string "/cache/f"
              [(("0001_a" ++ String LF "b.JPG" ++ String LF "")%string,
                "/cache/f")])
    as [key [record [Hin _]]].
  - split; reflexivity.
  - reflexivity.
  - in_table.
  - left; reflexivity.
  - vm_compute in Hin. exact Hin.
Qed.

(** C8 (amended): the pattern also accepts one line feed after the suffix:
    for every name made of a four-digit code, an underscore, any characters
    other than line feeds, [".JPG"] and exactly one final line feed, with
    the code a key of the label table, [_generate_examples] yields the
    record of that name (line feed included) with the label of the code. *)
Theorem trailing_line_feed_is_accepted (code mid lab fname fpath : string)
    (image_files : PyDict.t string) :
  is_code code ->
  no_newline mid = true ->
  fname = (code ++ "_" ++ mid ++ ".JPG" ++ String LF "")%string ->
  In (code, lab) _LABEL_MAPPING ->
  In (fname, fpath) (PyDict.items image_files) ->
  In (format_slash lab fname,
      {| image := fpath; image_filename := fname; label := lab |})
     (yielded image_files).
Proof.
  intros Hc Hmid -> Hlab Hin.
  destruct (match_shaped code mid (String LF EmptyString) Hc Hmid)
    as [m [Hm Hg]]; [now right|].
  now apply (accepted_item_is_yielded code lab _ fpath m).
Qed.

Lemma trailing_line_feed_is_accepted_witness :
  In (("Mango (P0) healthy/0001_leaf.JPG" ++ String LF "")%string,
      {| image := "/cache/a";
         image_filename := ("0001_leaf.JPG" ++ String LF "")%string;
         label := "Mango (P0) healthy" |})
     (yielded [(("0001_leaf.JPG" ++ String LF "")%string, "/cache/a")]).
Proof.
  apply (trailing_line_feed_is_accepted "0001" "leaf" "Mango (P0) healthy"
           ("0001_leaf.JPG" ++ String LF "")%string "/cache/a"
           [(("0001_leaf.JPG" ++ String LF "")%string, "/cache/a")]).
  - split; reflexivity.
  - reflexivity.
  - reflexivity.
  - in_table.
  - left; reflexivity.
Defined.

(** ** Names the generator skips *)

Lemma unrecognized_loop_body (fname : string) :
  Re.match_ regexp fname = None \/
  (exists m, Re.match_ regexp fname = Some m /\
             ~ In (Re.group1 m) (map fst _LABEL_MAPPING)) ->
  forall fpath, loop_body fname fpath = Ok None.
Proof.
  intros [Hm | [m [Hm Habs]]] fpath.
  - now apply loop_body_no_match.
  - apply (loop_body_absent _ _ m Hm). now apply label_map_None_iff.
Qed.

(** C4: for every name that [regexp] does not match, or whose captured code
    is not a code of the label table, an item of that name adds nothing to
    the output and stops nothing: the generator yields what it yields
    without the item, it raises no exception, and no yielded record bears
    that name. *)
Theorem unrecognized_name_is_skipped (fname : string) :
  Re.match_ regexp fname = None \/
  (exists m, Re.match_ regexp fname = Some m /\
             ~ In (Re.group1 m) (map fst _LABEL_MAPPING)) ->
  forall (pre post : list (string * string)) (fpath : string),
    _generate_examples (pre ++ (fname, fpath) :: post) =
    _generate_examples (pre ++ post) /\
    raised (pre ++ (fname, fpath) :: post) = None /\
    forall image_files key record,
      In (key, record) (yielded image_files) -> image_filename record <> fname.
Proof.
  intros Hun pre post fpath.
  pose proof (unrecognized_loop_body fname Hun) as Hskip.
  split; [|split].
  - apply skipped_item_drops_out, Hskip.
  - apply raised_never.
  - now apply skipped_name_not_yielded.
Qed.

Lemma unrecognized_name_is_skipped_witness :
  _generate_examples
    [("0001_a.JPG", "/cache/a"); ("0099_leaf.JPG", "/cache/b");
     ("0002_c.JPG", "/cache/c")] =
  _generate_examples [("0001_a.JPG", "/cache/a"); ("0002_c.JPG", "/cache/c")].
Proof.
  apply (unrecognized_name_is_skipped "0099_leaf.JPG"
           (or_intror
              (ex_intro _ (Re.MatchObj "0099_leaf.JPG" 0 4)
                 (conj eq_refl
                    (proj1 (label_map_None_iff "0099") eq_refl))))
           [("0001_a.JPG", "/cache/a")] [("0002_c.JPG", "/cache/c")]
           "/cache/b").
Defined.

(** C6: a name with a lowercase extension (a dot followed by one or more
    lowercase letters at its end), such as ["0001_leaf.jpg"], is not matched
    by [regexp], whose suffix is the uppercase [".JPG"]; no record is
    yielded under such a name, and an item of that name leaves the output
    as it is without it. *)
Theorem lowercase_extension_is_skipped (stem ext : string) :
  ext <> EmptyString ->
  string_forallb is_lower ext = true ->
  Re.match_ regexp (stem ++ "." ++ ext) = None /\
  (forall image_files key record,
     In (key, record) (yielded image_files) ->
     image_filename record <> (stem ++ "." ++ ext)%string) /\
  (forall pre post fpath,
     _generate_examples (pre ++ ((stem ++ "." ++ ext)%string, fpath) :: post) =
     _generate_examples (pre ++ post)).
Proof.
  intros Hne Hlow.
  assert (Re.match_ regexp (stem ++ "." ++ ext) = None) as Hnone.
  { destruct (Re.match_ regexp (stem ++ "." ++ ext)) as [m|] eqn:Hm;
      [exfalso | reflexivity].
    apply match_last_char in Hm.
    rewrite (last_char_app stem) in Hm by discriminate.
    rewrite (last_char_app ".") in Hm by exact Hne.
    destruct Hm as [Hm | Hm];
      apply (last_char_forallb _ _ _ Hlow) in Hm; discriminate Hm. }
  split; [exact Hnone | split].
  - apply skipped_name_not_yielded. intros fpath.
    now apply loop_body_no_match.
  - intros pre post fpath. apply skipped_item_drops_out.
    now apply loop_body_no_match.
Qed.

Lemma lowercase_extension_is_skipped_witness :
  Re.match_ regexp "0001_leaf.jpg" = None /\
  yielded [("0001_leaf.jpg", "/cache/a")] = [].
Proof.
  assert ("jpg" <> EmptyString) as Hne by discriminate.
  pose proof (lowercase_extension_is_skipped "0001_leaf" "jpg" Hne eq_refl)
    as [Hnone [_ Hdrop]].
  split; [exact Hnone|].
  exact (f_equal fst (Hdrop [] [] "/cache/a")).
Defined.

(** ** Order and number of the records *)

Lemma NoDup_map_reflect {A B C : Type} (f : A -> B) (g : A -> C) (l : list A) :
  (forall a b, In a l -> In b l -> f a = f b -> g a = g b) ->
  NoDup (map g l) -> NoDup (map f l).
Proof.
  induction l as [|a l IH]; simpl; intros Hfg Hg; [constructor|].
  inversion Hg as [|? ? Hnin Hg']; subst. constructor.
  - intros Hin. apply in_map_iff in Hin as [b [Hb Hin]].
    apply Hnin. apply in_map_iff. exists b. split; [|exact Hin].
    apply Hfg; auto.
  - apply IH; [|exact Hg']. intros x y Hx Hy. apply Hfg; auto.
Qed.

(** The records come out in the order of the items, one for each item the
    loop body accepts. *)
Lemma yielded_in_item_order (image_files : PyDict.t string) :
  map (fun y => (image_filename (snd y), image (snd y))) (yielded image_files) =
  filter (fun it => match loop_body (fst it) (snd it) with
                    | Ok (Some _) => true
                    | _ => false
                    end) (PyDict.items image_files).
Proof.
  rewrite yielded_spec. unfold PyDict.items.
  induction image_files as [|[fname fpath] its IH]; simpl; [reflexivity|].
  rewrite map_app, IH. unfold emitted at 1. simpl.
  destruct (loop_body fname fpath) as [[[key record]|]|e] eqn:E;
    try reflexivity.
  apply loop_body_Some_inv in E as [m [lab [_ [_ [_ ->]]]]]. reflexivity.
Qed.

(** When every item is accepted, there is one record per item. *)
Lemma yielded_names_all_accepted (image_files : PyDict.t string) :
  (forall fname, In fname (PyDict.keys image_files) ->
     exists m, Re.match_ regexp fname = Some m /\
               In (Re.group1 m) (map fst _LABEL_MAPPING)) ->
  map (fun y => image_filename (snd y)) (yielded image_files) =
  PyDict.keys image_files.
Proof.
  rewrite yielded_spec. unfold PyDict.items, PyDict.keys.
  induction image_files as [|[fname fpath] its IH]; simpl; intros Hall;
    [reflexivity|].
  rewrite map_app, IH by (intros f Hf; apply Hall; now right).
  destruct (Hall fname) as [m [Hm Hc]]; [now left|].
  destruct (PyDict.get label_map (Re.group1 m)) as [lab|] eqn:Hg.
  - unfold emitted. simpl. now rewrite (loop_body_accept _ _ _ _ Hm Hg).
  - apply label_map_None_iff in Hg. contradiction.
Qed.

Lemma yielded_keys_distinct (image_files : PyDict.t string) :
  NoDup (map (fun y => image_filename (snd y)) (yielded image_files)) ->
  NoDup (map fst (yielded image_files)).
Proof.
  apply NoDup_map_reflect.
  intros [k1 r1] [k2 r2] H1 H2. simpl. intros <-.
  apply yielded_inv in H1 as [m1 [_ [_ [Hg1 Hk1]]]].
  apply yielded_inv in H2 as [m2 [_ [_ [Hg2 Hk2]]]].
  apply label_map_Some_in, labels_have_no_slash in Hg1, Hg2.
  rewrite Hk1 in Hk2. now apply format_slash_inj in Hk2.
Qed.

(** C10: [_generate_examples] depends on nothing but the items of its
    argument, in their order: two dictionaries with the same items in the
    same order give the same sequence of yielded pairs (and the same end),
    and the records come out in the iteration order of the dictionary, one
    for each accepted item. *)
Theorem generate_examples_is_deterministic (d1 d2 : PyDict.t string) :
  PyDict.items d1 = PyDict.items d2 ->
  _generate_examples d1 = _generate_examples d2 /\
  map (fun y => (image_filename (snd y), image (snd y))) (yielded d1) =
  filter (fun it => match loop_body (fst it) (snd it) with
                    | Ok (Some _) => true
                    | _ => false
                    end) (PyDict.items d2).
Proof.
  intros Heq. split.
  - unfold _generate_examples. now rewrite Heq.
  - rewrite <- Heq. apply yielded_in_item_order.
Qed.

Lemma generate_examples_is_deterministic_witness :
  map (fun y => (image_filename (snd y), image (snd y)))
    (yielded [("0002_b.JPG", "/cache/b"); ("x.txt", "/cache/x");
              ("0001_a.JPG", "/cache/a")]) =
  [("0002_b.JPG", "/cache/b"); ("0001_a.JPG", "/cache/a")].
Proof.
  exact (proj2 (generate_examples_is_deterministic
                  [("0002_b.JPG", "/cache/b"); ("x.txt", "/cache/x");
                   ("0001_a.JPG", "/cache/a")]
                  [("0002_b.JPG", "/cache/b"); ("x.txt", "/cache/x");
                   ("0001_a.JPG", "/cache/a")] eq_refl)).
Defined.

(** C5: for a dictionary of N distinct names, each matched by [regexp] with
    a code of the label table, no two names with the same code,
    [_generate_examples] yields exactly N records, under N pairwise distinct
    keys, each key being ["{label}/{filename}"] for the label and the name
    of its record.  And for the two names ["0001_leaf.JPG"] and
    ["0099_leaf.JPG"], the code ["0099"] not being in the table, exactly one
    record is yielded, under ["Mango (P0) healthy/0001_leaf.JPG"]. *)
Theorem distinct_names_give_distinct_keys :
  (forall image_files : PyDict.t string,
     PyDict.wf image_files ->
     (forall fname, In fname (PyDict.keys image_files) ->
        exists m, Re.match_ regexp fname = Some m /\
                  In (Re.group1 m) (map fst _LABEL_MAPPING)) ->
     (forall f1 f2 m1 m2,
        In f1 (PyDict.keys image_files) -> In f2 (PyDict.keys image_files) ->
        Re.match_ regexp f1 = Some m1 -> Re.match_ regexp f2 = Some m2 ->
        Re.group1 m1 = Re.group1 m2 -> f1 = f2) ->
     List.length (yielded image_files) = List.length (PyDict.items image_files) /\
     NoDup (map fst (yielded image_files)) /\
     forall key record,
       In (key, record) (yielded image_files) ->
       key = format_slash (label record) (image_filename record)) /\
  (forall p1 p2,
     yielded [("0001_leaf.JPG", p1); ("0099_leaf.JPG", p2)] =
     [("Mango (P0) healthy/0001_leaf.JPG",
       {| image := p1; image_filename := "0001_leaf.JPG";
          label := "Mango (P0) healthy" |})]).
Proof.
  split.
  - intros image_files Hwf Hall _.
    pose proof (yielded_names_all_accepted image_files Hall) as Hnames.
    split; [|split].
    + rewrite <- (length_map (fun y => image_filename (snd y))), Hnames.
      apply length_map.
    + apply yielded_keys_distinct. rewrite Hnames. exact Hwf.
    + intros key record Hy. now apply yielded_inv in Hy as [m [_ [_ [_ ->]]]].
  - intros p1 p2. reflexivity.
Qed.

Lemma distinct_names_give_distinct_keys_witness :
  List.length (yielded [("0001_a.JPG", "/cache/a"); ("0002_b.JPG", "/cache/b")]) = 2 /\
  NoDup (map fst (yielded [("0001_a.JPG", "/cache/a");
                            ("0002_b.JPG", "/cache/b")])).
Proof.
  assert (forall fname,
            In fname (PyDict.keys [("0001_a.JPG", "/cache/a");
                                   ("0002_b.JPG", "/cache/b")]) ->
            (fname = "0001_a.JPG" /\
             Re.match_ regexp fname = Some (Re.MatchObj "0001_a.JPG" 0 4)) \/
            (fname = "0002_b.JPG" /\
             Re.match_ regexp fname = Some (Re.MatchObj "0002_b.JPG" 0 4)))
    as Hkeys.
  { intros fname [<- | [<- | []]]; [left | right]; split; reflexivity. }
  destruct (proj1 distinct_names_give_distinct_keys
              [("0001_a.JPG", "/cache/a"); ("0002_b.JPG", "/cache/b")])
    as [Hlen [Hnodup _]].
  - repeat constructor; simpl; intuition discriminate.
  - intros fname Hf.
    destruct (Hkeys fname Hf) as [[-> Hm] | [-> Hm]];
      eexists; (split; [exact Hm | in_table]).
  - intros f1 f2 m1 m2 H1 H2 Hm1 Hm2 Hg.
    destruct (Hkeys f1 H1) as [[-> E1] | [-> E1]];
      destruct (Hkeys f2 H2) as [[-> E2] | [-> E2]];
      try reflexivity;
      rewrite E1 in Hm1; rewrite E2 in Hm2;
      injection Hm1 as <-; injection Hm2 as <-; discriminate Hg.
  - split; [exact Hlen | exact Hnodup].
Defined.

(** ** The closed set of labels *)

Lemma distinctb_sound (l : list string) : distinctb l = true -> NoDup l.
Proof.
  induction l as [|x l IH]; simpl; intros H; [constructor|].
  apply andb_prop in H as [Hx Hl]. constructor; [|now apply IH].
  intros Hin. apply negb_true_iff in Hx.
  assert (existsb (String.eqb x) l = true) as E.
  { apply existsb_exists. exists x. split; [exact Hin | apply String.eqb_refl]. }
  congruence.
Qed.

Lemma is_code_table : Forall is_code (map fst _LABEL_MAPPING).
Proof. unfold _LABEL_MAPPING. simpl. repeat constructor. Qed.

(** C7: the label table has exactly 22 entries; its codes are four-digit
    texts, pairwise distinct; its labels are pairwise distinct; [_info]
    declares exactly the labels of the table, in the order of the table, as
    the names of the class label; and the label of every record that
    [_generate_examples] yields is one of them. *)
Theorem label_table_is_a_closed_set :
  List.length _LABEL_MAPPING = 22 /\
  Forall is_code (map fst _LABEL_MAPPING) /\
  NoDup (map fst _LABEL_MAPPING) /\
  NoDup (map snd _LABEL_MAPPING) /\
  exists info,
    _info = Ok info /\
    class_label_names info = map snd _LABEL_MAPPING /\
    forall image_files key record,
      In (key, record) (yielded image_files) ->
      In (label record) (class_label_names info).
Proof.
  split; [reflexivity|].
  split; [exact is_code_table|].
  split; [apply distinctb_sound; reflexivity|].
  split; [apply distinctb_sound; reflexivity|].
  eexists. split; [reflexivity|]. split; [reflexivity|].
  intros image_files key record Hy.
  apply yielded_inv in Hy as [m [_ [_ [Hg _]]]].
  apply label_map_Some_in in Hg.
  change (In (label record) (map snd _LABEL_MAPPING)).
  apply in_map_iff. now exists (Re.group1 m, label record).
Qed.

Lemma label_table_is_a_closed_set_witness :
  In "Mango (P0) healthy" (map snd _LABEL_MAPPING).
Proof.
  destruct label_table_is_a_closed_set as [_ [_ [_ [_ [info [_ [Hnames Hin]]]]]]].
  rewrite <- Hnames.
  apply (Hin [("0001_leaf.JPG", "/cache/a")]
           "Mango (P0) healthy/0001_leaf.JPG"
           {| image := "/cache/a"; image_filename := "0001_leaf.JPG";
              label := "Mango (P0) healthy" |}).
  left; reflexivity.
Defined.


(** * Further properties *)

(** ** [strip] and [basename] *)

Lemma append_nil_r (s : string) : (s ++ "")%string = s.
Proof. induction s as [|c s IH]; simpl; [reflexivity | now rewrite IH]. Qed.

Lemma append_assoc (a b c : string) : ((a ++ b) ++ c = a ++ (b ++ c))%string.
Proof. induction a as [|x a IH]; simpl; [reflexivity | now rewrite IH]. Qed.

Lemma string_forallb_app (f : ascii -> bool) (a b : string) :
  string_forallb f (a ++ b)%string = string_forallb f a && string_forallb f b.
Proof.
  induction a as [|x a IH]; simpl; [reflexivity|].
  now rewrite IH, andb_assoc.
Qed.

Lemma lstrip_forallb (f : ascii -> bool) (s : string) :
  string_forallb f s = true -> string_forallb f (lstrip s) = true.
Proof.
  induction s as [|c s IH]; simpl; [reflexivity|].
  intros H. destruct (is_space c); [|exact H].
  apply andb_prop in H as [_ H]. now apply IH.
Qed.

Lemma rstrip_forallb (f : ascii -> bool) (s : string) :
  string_forallb f s = true -> string_forallb f (rstrip s) = true.
Proof.
  induction s as [|c s IH]; simpl; [reflexivity|].
  intros H. apply andb_prop in H as [Hc Hs]. specialize (IH Hs).
  destruct (rstrip s) as [|d r].
  - destruct (is_space c); simpl; [reflexivity | now rewrite Hc].
  - simpl in *. now rewrite Hc, IH.
Qed.

Lemma lstrip_first (s : string) : not_space (first_char (lstrip s)).
Proof.
  induction s as [|c s IH]; simpl.
  - intros x [=].
  - destruct (is_space c) eqn:E; [exact IH|]. intros x [= <-]. exact E.
Qed.

Lemma rstrip_last (s : string) : not_space (last_char (rstrip s)).
Proof.
  induction s as [|c s IH]; simpl.
  - intros x [=].
  - destruct (rstrip s) as [|d r] eqn:E.
    + destruct (is_space c) eqn:Ec; simpl; intros x [=]. now subst.
    + intros x Hx. apply IH. exact Hx.
Qed.

(** [rstrip] cuts at the end only: a first character that is kept by
    [lstrip] is still first. *)
Lemma rstrip_first (s : string) :
  not_space (first_char s) -> not_space (first_char (rstrip s)).
Proof.
  destruct s as [|c s]; simpl; [intros _ x [=]|].
  intros H. destruct (rstrip s); [destruct (is_space c)|]; simpl;
    intros x [=]; subst; now apply H.
Qed.

Lemma rstrip_app_space (s ws : string) :
  string_forallb is_space ws = true -> rstrip (s ++ ws) = rstrip s.
Proof.
  intros Hws. induction s as [|c s IH]; simpl.
  - induction ws as [|w ws IHw]; simpl; [reflexivity|].
    simpl in Hws. apply andb_prop in Hws as [Hw Hws].
    now rewrite (IHw Hws), Hw.
  - now rewrite IH.
Qed.

Lemma rstrip_keeps (s : string) (c : ascii) :
  last_char s = Some c -> is_space c = false -> rstrip s = s.
Proof.
  induction s as [|x s IH]; simpl; [discriminate|].
  destruct s as [|y s].
  - intros [= ->] Hc. simpl. now rewrite Hc.
  - intros Hl Hc. rewrite (IH Hl Hc). reflexivity.
Qed.

Lemma lstrip_app_keeps (a b : string) :
  (exists c, first_char b = Some c /\ is_space c = false) ->
  lstrip (a ++ b) = (lstrip a ++ b)%string.
Proof.
  intros [c [Hb Hc]]. induction a as [|x a IH]; simpl.
  - destruct b as [|y b]; [discriminate|]. simpl in Hb. injection Hb as ->.
    simpl. now rewrite Hc.
  - destruct (is_space x); [exact IH | reflexivity].
Qed.

Lemma basename_from_forallb (f : ascii -> bool) (acc s : string) :
  string_forallb f acc = true -> string_forallb f s = true ->
  string_forallb f (basename_from acc s) = true.
Proof.
  revert acc; induction s as [|c s IH]; simpl; intros acc Ha Hs; [exact Ha|].
  apply andb_prop in Hs as [_ Hs].
  destruct (Ascii.eqb c "/"); now apply IH.
Qed.

Lemma basename_from_no_slash (acc s : string) :
  no_slash s = true -> basename_from acc s = acc.
Proof.
  unfold no_slash. revert acc; induction s as [|c s IH]; simpl; intros acc H;
    [reflexivity|].
  apply andb_prop in H as [Hc Hs].
  destruct (Ascii.eqb c "/"); [discriminate Hc | now apply IH].
Qed.

(** The result of [basename_from] is what follows the last ["/"] of the
    text still to read, or the text kept so far when there is none. *)
Lemma basename_from_cut (pre s : string) :
  no_slash pre = true ->
  no_slash (basename_from (pre ++ s) s) = true /\
  exists dir,
    (pre ++ s = dir ++ basename_from (pre ++ s) s)%string /\
    (dir = EmptyString \/ last_char dir = Some "/"%char).
Proof.
  unfold no_slash.
  revert pre; induction s as [|c s IH]; simpl; intros pre Hpre.
  - split; [now rewrite append_nil_r|]. exists EmptyString. auto.
  - destruct (Ascii.eqb_spec c "/") as [-> | Hc].
    + destruct (IH EmptyString eq_refl) as [Hn [dir [Hd Hl]]]. simpl in *.
      split; [exact Hn|].
      exists (pre ++ String "/" dir)%string. split.
      * rewrite append_assoc. simpl. now rewrite <- Hd.
      * right. rewrite last_char_app by discriminate.
        destruct Hl as [-> | Hl]; [reflexivity|].
        simpl. destruct dir; [discriminate | exact Hl].
    + assert ((pre ++ String c s)%string = ((pre ++ String c "") ++ s)%string)
        as E by (now rewrite append_assoc).
      rewrite E. apply IH.
      rewrite string_forallb_app, Hpre. simpl.
      destruct (Ascii.eqb_spec c "/"); [contradiction | reflexivity].
Qed.

Lemma basename_no_slash (p : string) : no_slash (basename p) = true.
Proof. exact (proj1 (basename_from_cut EmptyString p eq_refl)). Qed.

Lemma basename_is_suffix (p : string) :
  exists dir,
    p = (dir ++ basename p)%string /\
    (dir = EmptyString \/ last_char dir = Some "/"%char).
Proof. exact (proj2 (basename_from_cut EmptyString p eq_refl)). Qed.

Lemma basename_last_segment (dir name : string) :
  no_slash name = true -> basename (dir ++ "/" ++ name) = name.
Proof.
  intros Hn. unfold basename. generalize (dir ++ "/" ++ name)%string at 1.
  induction dir as [|c dir IH]; intros acc; simpl.
  - now apply basename_from_no_slash.
  - destruct (Ascii.eqb c "/"); apply IH.
Qed.

(** ** More on dictionaries *)

Lemma get_of_item {V : Type} (d : PyDict.t V) (k : string) (v : V) :
  PyDict.wf d -> In (k, v) (PyDict.items d) -> PyDict.get d k = Some v.
Proof.
  unfold PyDict.wf, PyDict.keys, PyDict.items.
  induction d as [|[k' v'] d IH]; simpl; intros Hwf Hin; [contradiction|].
  inversion Hwf as [|? ? Hnin Hwf']; subst.
  destruct Hin as [[= -> ->] | Hin].
  - now rewrite String.eqb_refl.
  - destruct (String.eqb_spec k' k) as [-> | _]; [|now apply IH].
    exfalso. apply Hnin. apply in_map_iff. now exists (k, v).
Qed.

Lemma item_of_get {V : Type} (d : PyDict.t V) (k : string) (v : V) :
  PyDict.get d k = Some v -> In (k, v) (PyDict.items d).
Proof.
  unfold PyDict.items. induction d as [|[k' v'] d IH]; simpl; [discriminate|].
  destruct (String.eqb_spec k' k) as [-> | _].
  - intros [= ->]. now left.
  - intros H. right. now apply IH.
Qed.

Lemma get_of_key {V : Type} (d : PyDict.t V) (k : string) :
  In k (PyDict.keys d) -> exists v, PyDict.get d k = Some v.
Proof.
  unfold PyDict.keys. induction d as [|[k' v'] d IH]; simpl; [contradiction|].
  destruct (String.eqb_spec k' k) as [-> | Hk]; [now exists v'|].
  intros [H | H]; [contradiction | now apply IH].
Qed.

Lemma setitem_new {V : Type} (d : PyDict.t V) (k : string) (v : V) :
  ~ In k (PyDict.keys d) -> PyDict.setitem d k v = d ++ [(k, v)].
Proof.
  unfold PyDict.keys. induction d as [|[k' v'] d IH]; simpl; intros Hnin;
    [reflexivity|].
  destruct (String.eqb_spec k' k) as [-> | _].
  - exfalso. apply Hnin. now left.
  - rewrite IH; [reflexivity|]. intros H. apply Hnin. now right.
Qed.

Lemma length_setitem {V : Type} (d : PyDict.t V) (k : string) (v : V) :
  List.length (PyDict.setitem d k v) <= S (List.length d).
Proof.
  induction d as [|[k' v'] d IH]; simpl; [lia|].
  destruct (String.eqb k' k); simpl; lia.
Qed.

Section ComprehensionMore.
Context {A V : Type} (key : A -> string) (val : A -> V).

Let step (d : PyDict.t V) (x : A) : PyDict.t V :=
  PyDict.setitem d (key x) (val x).

Lemma in_keys_fold (xs : list A) (d : PyDict.t V) (k : string) :
  In k (PyDict.keys (fold_left step xs d)) <->
  In k (PyDict.keys d) \/ exists x, In x xs /\ key x = k.
Proof.
  revert d; induction xs as [|x xs IH]; intros d; simpl.
  - split; [now left | intros [H | [x [[] _]]]; exact H].
  - rewrite IH. unfold step. rewrite PyDictFacts.in_keys_setitem. split.
    + intros [[-> | H] | [y [Hy Hk]]].
      * right. exists x. auto.
      * now left.
      * right. exists y. auto.
    + intros [H | [y [[<- | Hy] Hk]]].
      * left. now right.
      * left. now left.
      * right. now exists y.
Qed.

Lemma length_fold (xs : list A) (d : PyDict.t V) :
  List.length (fold_left step xs d) <= List.length d + List.length xs.
Proof.
  revert d; induction xs as [|x xs IH]; intros d; simpl; [lia|].
  specialize (IH (step d x)).
  pose proof (length_setitem d (key x) (val x)) as Hs.
  fold (step d x) in Hs. lia.
Qed.

Lemma fold_distinct (xs : list A) (d : PyDict.t V) :
  NoDup (PyDict.keys d ++ map key xs) ->
  fold_left step xs d = d ++ map (fun x => (key x, val x)) xs.
Proof.
  revert d; induction xs as [|x xs IH]; intros d Hnd; simpl.
  - now rewrite app_nil_r.
  - assert (~ In (key x) (PyDict.keys d)) as Hnew.
    { intros Hin. apply NoDup_remove_2 in Hnd. apply Hnd.
      apply in_or_app. now left. }
    unfold step at 2. rewrite (setitem_new d _ _ Hnew).
    rewrite IH; [now rewrite <- app_assoc|].
    unfold PyDict.keys in *. rewrite map_app. simpl.
    now rewrite <- app_assoc.
Qed.

End ComprehensionMore.

(** ** More on the URL manifest *)

Lemma manifest_get_inv (lines : list string) (k v : string) :
  PyDict.get (name_to_url_map lines) k = Some v ->
  exists l, In l lines /\ line_key l = k /\ line_url l = v.
Proof. apply PyDictFacts.get_comprehension_Some. Qed.

Lemma manifest_item_inv (lines : list string) (k v : string) :
  In (k, v) (PyDict.items (name_to_url_map lines)) ->
  exists l, In l lines /\ line_key l = k /\ line_url l = v.
Proof.
  intros Hin. apply manifest_get_inv. apply get_of_item; [|exact Hin].
  apply PyDictFacts.wf_comprehension.
Qed.

Lemma manifest_key_iff (lines : list string) (k : string) :
  In k (PyDict.keys (name_to_url_map lines)) <->
  exists l, In l lines /\ line_key l = k.
Proof.
  unfold name_to_url_map, PyDict.comprehension.
  rewrite (in_keys_fold (fun l => basename (strip l)) (fun l => strip l)).
  split; [intros [[] | H]; exact H | intros H; now right].
Qed.

Lemma strip_url_line (dir name ws : string) (c : ascii) :
  last_char name = Some c -> is_space c = false ->
  string_forallb is_space ws = true ->
  strip (dir ++ "/" ++ name ++ ws) = (lstrip dir ++ "/" ++ name)%string.
Proof.
  intros Hl Hc Hws. unfold strip.
  rewrite lstrip_app_keeps by (exists "/"%char; split; reflexivity).
  assert ((lstrip dir ++ "/" ++ name ++ ws)%string =
          ((lstrip dir ++ "/" ++ name) ++ ws)%string) as ->.
  { now rewrite append_assoc. }
  rewrite rstrip_app_space by exact Hws.
  apply (rstrip_keeps _ c); [|exact Hc].
  assert (name <> EmptyString) as Hne by (intros ->; discriminate Hl).
  rewrite (last_char_app (lstrip dir)) by discriminate.
  now rewrite (last_char_app "/") by exact Hne.
Qed.

(** X1: every entry of the manifest comes from a line of the file: its URL
    is the stripped text of some line, and its name is the basename of its
    URL. *)
Theorem manifest_entries_come_from_lines (lines : list string) (k v : string) :
  In (k, v) (PyDict.items (name_to_url_map lines)) ->
  (exists l, In l lines /\ v = strip l) /\ k = basename v.
Proof.
  intros Hin. apply manifest_item_inv in Hin as [l [Hl [Hk Hv]]].
  unfold line_key, line_url in *. subst. split; [now exists l | reflexivity].
Qed.

Lemma manifest_entries_come_from_lines_witness :
  (exists l, In l [" http://a/b/0001_x.JPG "; "http://c/0002_y.JPG"] /\
             "http://a/b/0001_x.JPG" = strip l) /\
  "0001_x.JPG" = basename "http://a/b/0001_x.JPG".
Proof.
  apply (manifest_entries_come_from_lines
           [" http://a/b/0001_x.JPG "; "http://c/0002_y.JPG"]).
  left; reflexivity.
Defined.

(** X2: no line is lost and none counts twice: the manifest has at most as
    many entries as the file has lines, and the basename of every line is a
    name of the manifest, bound to a URL with that basename. *)
Theorem every_line_has_an_entry (lines : list string) :
  List.length (PyDict.items (name_to_url_map lines)) <= List.length lines /\
  forall l, In l lines ->
    exists v, PyDict.getitem (name_to_url_map lines) (basename (strip l)) = Ok v /\
              basename v = basename (strip l).
Proof.
  split.
  - unfold name_to_url_map, PyDict.comprehension, PyDict.items.
    apply (length_fold (fun l => basename (strip l)) (fun l => strip l) lines []).
  - intros l Hl. unfold PyDict.getitem.
    destruct (PyDict.get (name_to_url_map lines) (basename (strip l)))
      as [v|] eqn:E.
    + exists v. split; [reflexivity|].
      apply manifest_get_inv in E as [l' [_ [Hk Hv]]].
      unfold line_key, line_url in *. now subst.
    + exfalso.
      destruct (get_of_key (name_to_url_map lines) (basename (strip l)))
        as [v Hv]; [|congruence].
      apply manifest_key_iff. now exists l.
Qed.

Lemma every_line_has_an_entry_witness :
  exists v,
    PyDict.getitem
      (name_to_url_map ["http://a/0001_x.JPG"; "http://b/0001_x.JPG"])
      "0001_x.JPG" = Ok v /\
    basename v = "0001_x.JPG".
Proof.
  apply (proj2 (every_line_has_an_entry
                  ["http://a/0001_x.JPG"; "http://b/0001_x.JPG"])
           "http://a/0001_x.JPG").
  left; reflexivity.
Defined.

(** X3: when the lines have pairwise distinct basenames, the manifest lists
    them one entry per line, in the order of the file. *)
Theorem distinct_basenames_keep_file_order (lines : list string) :
  NoDup (map (fun l => basename (strip l)) lines) ->
  PyDict.items (name_to_url_map lines) =
  map (fun l => (basename (strip l), strip l)) lines.
Proof.
  intros Hnd. unfold name_to_url_map, PyDict.comprehension, PyDict.items.
  now rewrite (fold_distinct (fun l => basename (strip l)) (fun l => strip l)).
Qed.

Lemma distinct_basenames_keep_file_order_witness :
  PyDict.items (name_to_url_map ["http://a/0002_y.JPG"; "http://a/0001_x.JPG"]) =
  [("0002_y.JPG", "http://a/0002_y.JPG"); ("0001_x.JPG", "http://a/0001_x.JPG")].
Proof.
  apply (distinct_basenames_keep_file_order
           ["http://a/0002_y.JPG"; "http://a/0001_x.JPG"]).
  apply distinctb_sound. reflexivity.
Defined.

(** X4: every name of the manifest is the last path segment of its URL: the
    name has no ["/"], and the URL is the name itself or ends in ["/"]
    followed by the name. *)
Theorem manifest_names_are_last_segments (lines : list string) (k v : string) :
  In (k, v) (PyDict.items (name_to_url_map lines)) ->
  no_slash k = true /\
  exists dir,
    v = (dir ++ k)%string /\
    (dir = EmptyString \/ last_char dir = Some "/"%char).
Proof.
  intros Hin. apply manifest_item_inv in Hin as [l [_ [Hk Hv]]].
  unfold line_key, line_url in *. subst. split.
  - apply basename_no_slash.
  - apply basename_is_suffix.
Qed.

Lemma manifest_names_are_last_segments_witness :
  no_slash "0001_x.JPG" = true /\
  exists dir,
    "http://a/b/0001_x.JPG" = (dir ++ "0001_x.JPG")%string /\
    (dir = EmptyString \/ last_char dir = Some "/"%char).
Proof.
  apply (manifest_names_are_last_segments ["http://a/b/0001_x.JPG"]).
  left; reflexivity.
Defined.

(** X5: every URL of the manifest is stripped: it neither begins nor ends
    with a whitespace character. *)
Theorem manifest_urls_are_stripped (lines : list string) (k v : string) :
  In (k, v) (PyDict.items (name_to_url_map lines)) ->
  not_space (first_char v) /\ not_space (last_char v).
Proof.
  intros Hin. apply manifest_item_inv in Hin as [l [_ [_ Hv]]].
  unfold line_url, strip in Hv. subst v. split.
  - apply rstrip_first, lstrip_first.
  - apply rstrip_last.
Qed.

Lemma manifest_urls_are_stripped_witness :
  not_space (first_char "http://a/0001_x.JPG") /\
  not_space (last_char "http://a/0001_x.JPG").
Proof.
  apply (manifest_urls_are_stripped
           [("  http://a/0001_x.JPG " ++ String LF "")%string] "0001_x.JPG").
  left; reflexivity.
Defined.

(** X6: a line made of a directory part, ["/"], a name without ["/"] that
    ends in a character other than whitespace, and trailing whitespace (the
    line feed that ends the line, for one) is entered under that name, with
    the line less its surrounding whitespace as URL, unless a later line has
    the same basename. *)
Theorem url_line_is_entered_under_its_name
    (pre post : list string) (dir name ws : string) (c : ascii) :
  no_slash name = true ->
  last_char name = Some c -> is_space c = false ->
  string_forallb is_space ws = true ->
  (forall l, In l post -> basename (strip l) <> name) ->
  PyDict.getitem
    (name_to_url_map (pre ++ (dir ++ "/" ++ name ++ ws)%string :: post)) name =
  Ok (lstrip dir ++ "/" ++ name)%string.
Proof.
  intros Hn Hl Hc Hws Hpost.
  pose proof (strip_url_line dir name ws c Hl Hc Hws) as Hs.
  assert (basename (strip (dir ++ "/" ++ name ++ ws)) = name) as Hb.
  { rewrite Hs. now apply basename_last_segment. }
  unfold PyDict.getitem, name_to_url_map.
  pose proof (PyDictFacts.get_comprehension_last
                (fun l => basename (strip l)) (fun l => strip l)
                pre post (dir ++ "/" ++ name ++ ws)%string) as Hg.
  cbv beta in Hg. rewrite Hb, Hs in Hg. now rewrite Hg.
Qed.

Lemma url_line_is_entered_under_its_name_witness :
  PyDict.getitem
    (name_to_url_map
       [ ("http://a/0002_y.JPG" ++ String LF "")%string;
         (" http://host/dir" ++ "/" ++ "0001_x.JPG" ++ String LF "")%string ])
    "0001_x.JPG" = Ok "http://host/dir/0001_x.JPG".
Proof.
  apply (url_line_is_entered_under_its_name
           [("http://a/0002_y.JPG" ++ String LF "")%string] []
           " http://host/dir" "0001_x.JPG" (String LF "") "G"%char).
  - reflexivity.
  - reflexivity.
  - reflexivity.
  - reflexivity.
  - intros l [].
Defined.

(** ** More on the retried download *)

Lemma download_loop_returned_inv (fuel : nat) (dl : downloader)
    (urls : PyDict.t string) (c : nat) (r : PyDict.t string) (calls : nat) :
  download_loop fuel dl urls c 0 = Returned r calls ->
  exists n,
    calls = S (c + n) /\ n < fuel /\ dl (c + n) urls = Ok r /\
    forall i, i < n -> exists e, dl (c + i) urls = Raise e.
Proof.
  revert c; induction fuel as [|fuel IH]; intros c; simpl; [discriminate|].
  destruct (dl c urls) as [r0|e] eqn:E.
  - intros [= <- <-]. exists 0. rewrite Nat.add_0_r.
    repeat split; [lia | exact E | intros i Hi; lia].
  - simpl. intros H. apply IH in H as [n [Hc [Hn [Hok Hfail]]]].
    exists (S n). replace (c + S n) with (S c + n) by lia.
    repeat split; [exact Hc | lia | exact Hok |].
    intros [|i] Hi.
    + rewrite Nat.add_0_r. now exists e.
    + replace (c + S i) with (S c + i) by lia. apply Hfail. lia.
Qed.

Lemma download_loop_looping_iff (fuel : nat) (dl : downloader)
    (urls : PyDict.t string) (c calls : nat) :
  download_loop fuel dl urls c 0 = Looping calls <->
  calls = c + fuel /\ forall i, i < fuel -> exists e, dl (c + i) urls = Raise e.
Proof.
  revert c; induction fuel as [|fuel IH]; intros c; simpl.
  - split.
    + intros [= <-]. split; [lia | intros i Hi; lia].
    + intros [-> _]. now rewrite Nat.add_0_r.
  - destruct (dl c urls) as [r0|e] eqn:E; simpl.
    + split; [discriminate|]. intros [_ H].
      destruct (H 0) as [e He]; [lia|]. rewrite Nat.add_0_r in He. congruence.
    + rewrite IH. split.
      * intros [-> H]. split; [lia|]. intros [|i] Hi.
        -- rewrite Nat.add_0_r. now exists e.
        -- replace (c + S i) with (S c + i) by lia. apply H. lia.
      * intros [-> H]. split; [lia|]. intros i Hi.
        replace (S c + i) with (c + S i) by lia. apply H. lia.
Qed.

(** X7: the number of retries has no bound: whatever [n] is, when
    [dl_manager.download] raises on its first [n] calls and returns on the
    next, [_split_generators] makes exactly [n + 1] calls and returns the
    TRAIN split generator built on the returned dictionary. *)
Theorem retries_until_first_success (n fuel : nat) (lines : list string)
    (dl : downloader) (image_files : PyDict.t string) :
  (forall i, i < n -> exists e, dl i (name_to_url_map lines) = Raise e) ->
  dl n (name_to_url_map lines) = Ok image_files ->
  n < fuel ->
  _split_generators fuel lines dl =
  Returned [ {| name := TRAIN; num_shards := 1;
                gen_kwargs := [("image_files", image_files)] |} ] (S n).
Proof.
  intros Hfail Hok Hfuel. unfold _split_generators.
  now rewrite (download_loop_success_after n fuel dl _ 0 image_files).
Qed.

Lemma retries_until_first_success_witness :
  _split_generators 30 [ "http://host/dir/0001_0001.JPG" ]
    (fun k _ => if Nat.ltb k 25 then Raise (DownloadError 504)
                else Ok [("0001_0001.JPG", "/cache/0001_0001.JPG")]) =
  Returned [ {| name := TRAIN; num_shards := 1;
                gen_kwargs :=
                  [("image_files",
                    [("0001_0001.JPG", "/cache/0001_0001.JPG")])] |} ] 26.
Proof.
  apply (retries_until_first_success 25).
  - intros i Hi. exists (DownloadError 504).
    destruct (Nat.ltb_spec i 25); [reflexivity | lia].
  - reflexivity.
  - lia.
Defined.

(** X8: what [_split_generators] returns is built on the first successful
    download: when it returns after [calls] calls, every call before the
    last raised, the last one returned a dictionary, the downloads were all
    asked for the manifest of the file, and the result is the single TRAIN
    split generator, of one shard, carrying that dictionary as
    [image_files]. *)
Theorem returned_split_is_first_success (fuel : nat) (lines : list string)
    (dl : downloader) (gens : list SplitGenerator) (calls : nat) :
  _split_generators fuel lines dl = Returned gens calls ->
  exists image_files n,
    calls = S n /\ n < fuel /\
    dl n (name_to_url_map lines) = Ok image_files /\
    (forall i, i < n -> exists e, dl i (name_to_url_map lines) = Raise e) /\
    gens = [ {| name := TRAIN; num_shards := 1;
                gen_kwargs := [("image_files", image_files)] |} ].
Proof.
  unfold _split_generators.
  destruct (download_loop fuel dl (name_to_url_map lines) 0 0)
    as [r k | e k | k] eqn:E; try discriminate.
  intros [= <- <-].
  apply download_loop_returned_inv in E as [n [Hc [Hn [Hok Hfail]]]].
  exists r, n. simpl in *. auto.
Qed.

Lemma returned_split_is_first_success_witness :
  exists image_files n,
    3 = S n /\ n < 5 /\
    (fun k (_ : PyDict.t string) =>
       if Nat.ltb k 2 then Raise (DownloadError 504)
       else Ok [("0001_a.JPG", "/cache/a")]) n
      (name_to_url_map ["http://h/0001_a.JPG"]) = Ok image_files /\
    (forall i, i < n ->
       exists e,
         (fun k (_ : PyDict.t string) =>
            if Nat.ltb k 2 then Raise (DownloadError 504)
            else Ok [("0001_a.JPG", "/cache/a")]) i
           (name_to_url_map ["http://h/0001_a.JPG"]) = Raise e) /\
    [ {| name := TRAIN; num_shards := 1;
         gen_kwargs := [("image_files", [("0001_a.JPG", "/cache/a")])] |} ] =
    [ {| name := TRAIN; num_shards := 1;
         gen_kwargs := [("image_files", image_files)] |} ].
Proof.
  apply (returned_split_is_first_success 5 ["http://h/0001_a.JPG"]).
  reflexivity.
Defined.

(** X9: [_split_generators] is still in its loop after [fuel] iterations
    exactly when every one of the first [fuel] downloads raised; it has then
    made [fuel] calls. *)
Theorem still_looping_iff_all_failed (fuel : nat) (lines : list string)
    (dl : downloader) (calls : nat) :
  _split_generators fuel lines dl = Looping calls <->
  calls = fuel /\
  forall i, i < fuel -> exists e, dl i (name_to_url_map lines) = Raise e.
Proof.
  unfold _split_generators.
  destruct (download_loop fuel dl (name_to_url_map lines) 0 0)
    as [r k | e k | k] eqn:E.
  - split; [discriminate|]. intros [_ H].
    apply download_loop_returned_inv in E as [n [_ [Hn [Hok _]]]].
    destruct (H n Hn) as [e He]. simpl in Hok. congruence.
  - now apply download_loop_never_raises in E.
  - apply download_loop_looping_iff in E as [-> H]. simpl. split.
    + intros [= <-]. auto.
    + now intros [-> _].
Qed.

Lemma still_looping_iff_all_failed_witness :
  _split_generators 40 ["http://h/0001_a.JPG"]
    (fun _ _ => Raise (DownloadError 504)) = Looping 40.
Proof.
  apply (proj2 (still_looping_iff_all_failed 40 ["http://h/0001_a.JPG"]
                  (fun _ _ => Raise (DownloadError 504)) 40)).
  split; [reflexivity|]. intros i _. now exists (DownloadError 504).
Defined.

(** ** More on the pattern and the generator *)

(** X10: the language of the pattern: [regexp] matches a name exactly when
    the name is four digits, an underscore, any characters other than line
    feeds, [".JPG"] and at most one final line feed; group 1 is then the
    first four characters of the name. *)
Theorem regexp_language (s : string) (m : Re.match_obj) :
  Re.match_ regexp s = Some m <->
  m = Re.MatchObj s 0 4 /\
  exists code mid eol,
    is_code code /\ no_newline mid = true /\ line_end eol /\
    s = (code ++ "_" ++ mid ++ ".JPG" ++ eol)%string /\
    Re.group1 m = code.
Proof.
  rewrite ReFacts.match_regexp_iff. unfold is_code. split.
  - intros [code [mid [eol [Hl [Hd [Hm [He [Hs [Hmo Hg]]]]]]]]].
    split; [exact Hmo|]. exists code, mid, eol. auto.
  - intros [Hmo [code [mid [eol [[Hl Hd] [Hm [He [Hs Hg]]]]]]]].
    exists code, mid, eol. auto 10.
Qed.

Lemma regexp_language_witness :
  Re.match_ regexp "0001_.JPG" = Some (Re.MatchObj "0001_.JPG" 0 4).
Proof.
  apply (proj2 (regexp_language "0001_.JPG" (Re.MatchObj "0001_.JPG" 0 4))).
  split; [reflexivity|].
  exists "0001", EmptyString, EmptyString.
  repeat split; try reflexivity. now left.
Defined.

(** X11: the generator treats every item on its own: over the items of two
    dictionaries put one after the other it yields what it yields for the
    first followed by what it yields for the second, and ends without an
    exception. *)
Theorem generator_treats_items_one_by_one (d1 d2 : PyDict.t string) :
  _generate_examples (d1 ++ d2) = (yielded d1 ++ yielded d2, None).
Proof.
  unfold yielded, _generate_examples, PyDict.items.
  rewrite !for_items_spec. simpl. now rewrite flat_map_app.
Qed.

Lemma NoDup_map_fst_filter {A B : Type} (P : A * B -> bool) (l : list (A * B)) :
  NoDup (map fst l) -> NoDup (map fst (filter P l)).
Proof.
  induction l as [|x l IH]; simpl; intros H; [constructor|].
  inversion H as [|? ? Hnin H']; subst.
  destruct (P x); simpl; [|now apply IH].
  constructor; [|now apply IH].
  intros Hin. apply Hnin. apply in_map_iff in Hin as [y [Hy Hin]].
  apply filter_In in Hin as [Hin _]. apply in_map_iff. now exists y.
Qed.

(** X12: a dictionary, whose names are pairwise distinct, gives records
    under pairwise distinct keys and with pairwise distinct file names,
    whether or not some of its items are skipped. *)
Theorem yielded_keys_are_distinct (image_files : PyDict.t string) :
  PyDict.wf image_files ->
  NoDup (map fst (yielded image_files)) /\
  NoDup (map (fun y => image_filename (snd y)) (yielded image_files)).
Proof.
  intros Hwf.
  assert (NoDup (map (fun y => image_filename (snd y)) (yielded image_files)))
    as Hnames.
  { pose proof (yielded_in_item_order image_files) as Ho.
    apply (f_equal (map fst)) in Ho. rewrite map_map in Ho. simpl in Ho.
    rewrite Ho. now apply NoDup_map_fst_filter. }
  split; [now apply yielded_keys_distinct | exact Hnames].
Qed.

Lemma yielded_keys_are_distinct_witness :
  NoDup (map fst (yielded [("0001_a.JPG", "/cache/a"); ("notes.txt", "/cache/n");
                            ("0001_b.JPG", "/cache/b")])).
Proof.
  apply (yielded_keys_are_distinct
           [("0001_a.JPG", "/cache/a"); ("notes.txt", "/cache/n");
            ("0001_b.JPG", "/cache/b")]).
  apply distinctb_sound. reflexivity.
Defined.

(** X13: the records yielded are exactly these: a pair is yielded when, and
    only when, its file name is four digits, an underscore, characters other
    than line feeds, [".JPG"] and at most one final line feed; its label is
    the label of those four digits in the table; its file name and its path
    are an item of the dictionary; and its key is ["{label}/{filename}"]. *)
Theorem yielded_iff (image_files : PyDict.t string) (key : string)
    (record : example) :
  In (key, record) (yielded image_files) <->
  (exists code mid eol,
     is_code code /\ no_newline mid = true /\ line_end eol /\
     image_filename record = (code ++ "_" ++ mid ++ ".JPG" ++ eol)%string /\
     In (code, label record) _LABEL_MAPPING) /\
  In (image_filename record, image record) (PyDict.items image_files) /\
  key = format_slash (label record) (image_filename record).
Proof.
  split.
  - intros H. apply yielded_inv in H as [m [Hin [Hm [Hg Hk]]]].
    split; [|split; assumption].
    apply ReFacts.match_regexp_iff in Hm
      as [code [mid [eol [Hl [Hd [Hmid [He [Hs [_ Hc]]]]]]]]].
    exists code, mid, eol. rewrite Hc in Hg.
    apply label_map_Some_in in Hg. unfold is_code. auto 10.
  - intros [[code [mid [eol [Hc [Hmid [He [Hs Hlab]]]]]]] [Hin Hk]].
    destruct (match_shaped code mid eol Hc Hmid He) as [m [Hm Hg]].
    change (".JPG" ++ eol)%string with (JPG ++ eol)%string in Hs.
    rewrite <- Hs in Hm.
    destruct (accepted_item_is_yielded code (label record)
                (image_filename record) (image record) m image_files
                Hm Hg Hlab Hin) as [Hy _].
    destruct record as [i f l]. simpl in *. now subst key.
Qed.

Lemma yielded_iff_witness :
  In ("Lemon (P10) healthy/0010_7.JPG",
      {| image := "/cache/l"; image_filename := "0010_7.JPG";
         label := "Lemon (P10) healthy" |})
     (yielded [("x.txt", "/cache/x"); ("0010_7.JPG", "/cache/l")]).
Proof.
  apply (proj2 (yielded_iff [("x.txt", "/cache/x"); ("0010_7.JPG", "/cache/l")]
                  "Lemon (P10) healthy/0010_7.JPG"
                  {| image := "/cache/l"; image_filename := "0010_7.JPG";
                     label := "Lemon (P10) healthy" |})).
  split; [|split].
  - exists "0010", "7", EmptyString. simpl.
    repeat split; try reflexivity; [now left | in_table].
  - right; left; reflexivity.
  - reflexivity.
Defined.

(** X14: the set of records does not depend on the order in which the
    dictionary is walked: dictionaries whose items are a rearrangement of one
    another give outputs that are a rearrangement of one another. *)
Theorem yielded_up_to_order (d1 d2 : PyDict.t string) :
  Permutation (PyDict.items d1) (PyDict.items d2) ->
  Permutation (yielded d1) (yielded d2).
Proof.
  intros Hp. rewrite !yielded_spec. now apply Permutation_flat_map.
Qed.

Lemma yielded_up_to_order_witness :
  Permutation
    (yielded [("0001_a.JPG", "/cache/a"); ("0002_b.JPG", "/cache/b")])
    (yielded [("0002_b.JPG", "/cache/b"); ("0001_a.JPG", "/cache/a")]).
Proof.
  apply (yielded_up_to_order
           [("0001_a.JPG", "/cache/a"); ("0002_b.JPG", "/cache/b")]
           [("0002_b.JPG", "/cache/b"); ("0001_a.JPG", "/cache/a")]).
  apply perm_swap.
Defined.

(** ** From the URL file to the records *)

Lemma lstrip_is_line (l : string) : is_line l -> is_line (lstrip l).
Proof.
  intros [body [eol [-> [Hb He]]]].
  induction body as [|c body IH]; simpl.
  - exists EmptyString, EmptyString. repeat split; [|now left].
    destruct He as [-> | ->]; reflexivity.
  - unfold no_newline in Hb. simpl in Hb. apply andb_prop in Hb as [Hc Hb'].
    destruct (is_space c); [now apply IH|].
    exists (String c body), eol. repeat split; [|exact He].
    unfold no_newline. simpl. now rewrite Hc, Hb'.
Qed.

Lemma strip_no_newline (l : string) : is_line l -> no_newline (strip l) = true.
Proof.
  intros Hl. apply lstrip_is_line in Hl as [body [eol [E [Hb He]]]].
  unfold strip. rewrite E. rewrite rstrip_app_space.
  - now apply rstrip_forallb.
  - destruct He as [-> | ->]; reflexivity.
Qed.

Lemma line_key_no_newline (l : string) :
  is_line l -> no_newline (line_key l) = true.
Proof.
  intros Hl. apply strip_no_newline in Hl. unfold line_key, basename.
  now apply basename_from_forallb.
Qed.

(** In a name free of line feeds the pattern leaves no room for the final
    line feed. *)
Lemma shape_without_line_feed (k code mid eol : string) :
  no_newline k = true -> line_end eol ->
  k = (code ++ "_" ++ mid ++ JPG ++ eol)%string ->
  k = (code ++ "_" ++ mid ++ ".JPG")%string.
Proof.
  intros Hk [-> | ->] E; [exact E|]. exfalso. subst k.
  unfold no_newline in Hk.
  rewrite (string_forallb_app _ code) in Hk. apply andb_prop in Hk as [_ Hk].
  rewrite (string_forallb_app _ "_") in Hk. apply andb_prop in Hk as [_ Hk].
  rewrite (string_forallb_app _ mid) in Hk. apply andb_prop in Hk as [_ Hk].
  discriminate Hk.
Qed.

(** X15: lines as [readlines] gives them, with no line feed but at their
    end, give names free of line feeds; and for such a name the pattern is
    just: four digits, an underscore, any characters, [".JPG"]. *)
Theorem manifest_names_have_no_line_feed (lines : list string) (k : string) :
  (forall l, In l lines -> is_line l) ->
  In k (PyDict.keys (name_to_url_map lines)) ->
  no_newline k = true /\
  ((exists m, Re.match_ regexp k = Some m) <->
   (exists code mid,
      is_code code /\ k = (code ++ "_" ++ mid ++ ".JPG")%string)).
Proof.
  intros Hlines Hk. apply manifest_key_iff in Hk as [l [Hl <-]].
  pose proof (line_key_no_newline l (Hlines l Hl)) as Hn.
  split; [exact Hn|]. split.
  - intros [m Hm]. apply ReFacts.match_regexp_iff in Hm
      as [code [mid [eol [Hlen [Hd [_ [He [Hs _]]]]]]]].
    exists code, mid. split; [now split|].
    now apply (shape_without_line_feed _ code mid eol).
  - intros [code [mid [Hc Hs]]].
    assert (no_newline mid = true) as Hmid.
    { rewrite Hs in Hn. unfold no_newline in *.
      rewrite (string_forallb_app _ code) in Hn.
      apply andb_prop in Hn as [_ Hn].
      rewrite (string_forallb_app _ "_") in Hn.
      apply andb_prop in Hn as [_ Hn].
      rewrite (string_forallb_app _ mid) in Hn.
      now apply andb_prop in Hn as [Hn _]. }
    destruct (match_shaped code mid EmptyString Hc Hmid) as [m [Hm _]];
      [now left|].
    exists m. rewrite Hs. exact Hm.
Qed.

Lemma manifest_names_have_no_line_feed_witness :
  no_newline "0001_x.JPG" = true /\
  ((exists m, Re.match_ regexp "0001_x.JPG" = Some m) <->
   (exists code mid,
      is_code code /\ "0001_x.JPG" = (code ++ "_" ++ mid ++ ".JPG")%string)).
Proof.
  apply (manifest_names_have_no_line_feed
           [("http://a/0001_x.JPG" ++ String LF "")%string]).
  - intros l [<- | []]. exists "http://a/0001_x.JPG", (String LF "").
    repeat split. now right.
  - left; reflexivity.
Defined.

(** X16: from the URL file to the records.  When the lines have no line
    feed but at their end and the downloaded dictionary has no name that
    the manifest lacks, every record yielded bears the basename of a line of
    the file, that name is four digits, an underscore, any characters and
    [".JPG"], and the label is the one the table gives for the four
    digits. *)
Theorem records_come_from_url_lines (lines : list string)
    (image_files : PyDict.t string) (key : string) (record : example) :
  (forall l, In l lines -> is_line l) ->
  (forall k, In k (PyDict.keys image_files) ->
             In k (PyDict.keys (name_to_url_map lines))) ->
  In (key, record) (yielded image_files) ->
  (exists l, In l lines /\ image_filename record = basename (strip l)) /\
  exists code mid,
    is_code code /\
    image_filename record = (code ++ "_" ++ mid ++ ".JPG")%string /\
    In (code, label record) _LABEL_MAPPING.
Proof.
  intros Hlines Hkeys Hy.
  apply yielded_inv in Hy as [m [Hin [Hm [Hg _]]]].
  assert (In (image_filename record) (PyDict.keys (name_to_url_map lines)))
    as Hk.
  { apply Hkeys. unfold PyDict.keys. apply in_map_iff.
    now exists (image_filename record, image record). }
  apply manifest_key_iff in Hk as [l [Hl Hlk]].
  split; [exists l; split; [exact Hl | now rewrite <- Hlk]|].
  pose proof (line_key_no_newline l (Hlines l Hl)) as Hn. rewrite Hlk in Hn.
  apply ReFacts.match_regexp_iff in Hm
    as [code [mid [eol [Hlen [Hd [_ [He [Hs [_ Hc]]]]]]]]].
  exists code, mid. rewrite Hc in Hg. apply label_map_Some_in in Hg.
  split; [now split|]. split; [|exact Hg].
  now apply (shape_without_line_feed _ code mid eol).
Qed.

Lemma records_come_from_url_lines_witness :
  (exists l, In l [("http://a/0001_x.JPG" ++ String LF "")%string] /\
             "0001_x.JPG" = basename (strip l)) /\
  exists code mid,
    is_code code /\
    "0001_x.JPG" = (code ++ "_" ++ mid ++ ".JPG")%string /\
    In (code, "Mango (P0) healthy") _LABEL_MAPPING.
Proof.
  apply (records_come_from_url_lines
           [("http://a/0001_x.JPG" ++ String LF "")%string]
           [("0001_x.JPG", "/cache/x")]
           "Mango (P0) healthy/0001_x.JPG"
           {| image := "/cache/x"; image_filename := "0001_x.JPG";
              label := "Mango (P0) healthy" |}).
  - intros l [<- | []]. exists "http://a/0001_x.JPG", (String LF "").
    repeat split. now right.
  - intros k [<- | []]. left; reflexivity.
  - left; reflexivity.
Defined.

(** ** A blank line in the URL file *)

Lemma strip_blank (ws : string) :
  string_forallb is_space ws = true -> strip ws = EmptyString.
Proof.
  intros H. unfold strip.
  assert (lstrip ws = EmptyString) as ->; [|reflexivity].
  induction ws as [|c ws IH]; simpl in *; [reflexivity|].
  apply andb_prop in H as [Hc Hws]. rewrite Hc. now apply IH.
Qed.

(** X17: a blank line is not skipped: a line of whitespace only (the empty
    line included) is entered in the manifest under the empty name with the
    empty URL, unless a later line has an empty basename too. *)
Theorem blank_line_is_entered_under_empty_name
    (pre post : list string) (ws : string) :
  string_forallb is_space ws = true ->
  (forall l, In l post -> basename (strip l) <> EmptyString) ->
  PyDict.getitem (name_to_url_map (pre ++ ws :: post)) EmptyString =
  Ok EmptyString.
Proof.
  intros Hws Hpost. pose proof (strip_blank ws Hws) as Hs.
  unfold PyDict.getitem, name_to_url_map.
  pose proof (PyDictFacts.get_comprehension_last
                (fun l => basename (strip l)) (fun l => strip l)
                pre post ws) as Hg.
  cbv beta in Hg. rewrite Hs in Hg. change (basename "") with "" in Hg.
  now rewrite Hg.
Qed.

Lemma blank_line_is_entered_under_empty_name_witness :
  PyDict.getitem
    (name_to_url_map
       [ ("http://a/0001_x.JPG" ++ String LF "")%string;
         String LF "";
         ("http://a/0002_y.JPG" ++ String LF "")%string ])
    EmptyString = Ok EmptyString.
Proof.
  apply (blank_line_is_entered_under_empty_name
           [("http://a/0001_x.JPG" ++ String LF "")%string] 
           [("http://a/0002_y.JPG" ++ String LF "")%string]
           (String LF "")).
  - reflexivity.
  - intros l [<- | []]. discriminate.
Defined.
